(** * Todo App backend: authentication and identity enforcement

    A shallow embedding of [backend/utils.py], [backend/config.py],
    [backend/dependencies.py], [backend/routes/auth.py] and
    [backend/routes/tasks.py].

    Conventions of the embedding:
    - a Python call that may raise returns a [result]: [Ok v] or [Raise e];
    - a Python [str] is a string of characters below U+0100, one character
      of the embedding for each; a [bytes] value is a string of its bytes;
    - [datetime] values are integers counting microseconds since the epoch,
      [timedelta] values are integers counting microseconds; the clock is
      an explicit argument [now] wherever the code calls [datetime.utcnow];
    - dictionaries are [gmap]s with string keys;
    - database tables are lists of rows, in insertion order. *)

From Stdlib Require Import ZArith NArith Ascii String List Lia.
From stdpp Require Import base option gmap strings list fin_maps.

Local Open Scope string_scope.
Local Open Scope Z_scope.

(** ** Exceptions and results *)

(** The exception classes that the modelled code raises or catches. The
    constructors below [ValueError] and [JWTError] are subclasses of them
    in the libraries; the [isinstance_] tests follow the class hierarchy.
    [RecursionError] and [OverflowError] are subclasses of neither. *)
Inductive exn : Type :=
  | ValueError
  | TypeError
  | RecursionError
  | OverflowError
  | JWTError
  | ExpiredSignatureError
  | JWTClaimsError
  | JWSError
  | JWKError
  | UnknownHashError
  | MalformedHashError
  | MissingDigestError
  | PasswordSizeError
  | MultipleResultsFound
  | IntegrityError
  | HTTPException (status_code : Z) (detail : string)
                  (headers : list (string * string)).

Inductive result (A : Type) : Type :=
  | Ok (a : A)
  | Raise (e : exn).
Arguments Ok {A} a.
Arguments Raise {A} e.

(** [result] is the error monad of the embedding; stdpp's notations
    [x ← r; k] and [r;; k] sequence calls and propagate a raised exception. *)
#[global] Instance result_ret : MRet result := fun A a => Ok a.
#[global] Instance result_bind : MBind result := fun A B k r =>
  match r with
  | Ok a => k a
  | Raise e => Raise e
  end.

Definition isinstance_JWTError (e : exn) : bool :=
  match e with
  | JWTError | ExpiredSignatureError | JWTClaimsError => true
  | _ => false
  end.

Definition isinstance_ValueError (e : exn) : bool :=
  match e with
  | ValueError | UnknownHashError | MalformedHashError | MissingDigestError
  | PasswordSizeError => true
  | _ => false
  end.

Definition isinstance_TypeError (e : exn) : bool :=
  match e with
  | TypeError => true
  | _ => false
  end.

Definition isinstance_HTTPException (e : exn) : bool :=
  match e with
  | HTTPException _ _ _ => true
  | _ => false
  end.

(** The status codes used by the routes. *)
Definition HTTP_400_BAD_REQUEST : Z := 400.
Definition HTTP_401_UNAUTHORIZED : Z := 401.
Definition HTTP_403_FORBIDDEN : Z := 403.
Definition HTTP_404_NOT_FOUND : Z := 404.
Definition HTTP_409_CONFLICT : Z := 409.
Definition HTTP_500_INTERNAL_SERVER_ERROR : Z := 500.

(** ** Python builtins: [str] and [int] on integers *)

Module Py.

Definition is_digit (c : ascii) : bool :=
  let n := nat_of_ascii c in (48 <=? n)%nat && (n <=? 57)%nat.

Definition digit_val (c : ascii) : Z := Z.of_nat (nat_of_ascii c) - 48.

Definition digit_char (d : Z) : ascii := ascii_of_nat (48 + Z.to_nat d).

(** Characters that [int] strips around the number: tab, line feed,
    vertical tab, form feed, carriage return and space, and of the
    characters above U+007F next line (U+0085) and no-break space
    (U+00A0). The separators 0x1c..0x1f are not stripped. *)
Definition is_space (c : ascii) : bool :=
  let n := nat_of_ascii c in
  ((9 <=? n)%nat && (n <=? 13)%nat) || (n =? 32)%nat
  || (n =? 133)%nat || (n =? 160)%nat.

Definition is_underscore (c : ascii) : bool := (nat_of_ascii c =? 95)%nat.

(** [sys.int_info.default_max_str_digits]: [int] refuses a literal with
    more digits, and [str] an integer that needs more. *)
Definition MAX_STR_DIGITS : nat := 4300.


(** Decimal digits of a non-negative number, most significant first,
    pushed in front of [rest]. [fuel] bounds the number of divisions. *)
Fixpoint digits_of (fuel : nat) (n : Z) (rest : string) : string :=
  let rest' := String (digit_char (n mod 10)) rest in
  match fuel with
  | O => rest'
  | S f => if n <? 10 then rest' else digits_of f (n / 10) rest'
  end.

(** [str(n)] for an [int] of at most [MAX_STR_DIGITS] digits. *)
Definition str (n : Z) : string :=
  if n <? 0
  then String "-" (digits_of (Z.to_nat (Z.log2 (- n))) (- n) "")
  else digits_of (Z.to_nat (Z.log2 n)) n "".

Fixpoint all_space (s : string) : bool :=
  match s with
  | EmptyString => true
  | String c s' => is_space c && all_space s'
  end.

(** The digits of an [int] literal: decimal digits, single underscores
    allowed between two digits, optional trailing whitespace.
    [prev_digit] tells whether the previous character was a digit. *)
Fixpoint int_digits (s : string) (acc : Z) (prev_digit : bool) : option Z :=
  match s with
  | EmptyString => if prev_digit then Some acc else None
  | String c s' =>
      if is_digit c then int_digits s' (10 * acc + digit_val c) true
      else if is_underscore c then
        if prev_digit then int_digits s' acc false else None
      else if is_space c then
        if prev_digit && all_space s' then Some acc else None
      else None
  end.

Definition int_signed (s : string) : option Z :=
  match s with
  | String "-" s' => Z.opp <$> int_digits s' 0 false
  | String "+" s' => int_digits s' 0 false
  | _ => int_digits s 0 false
  end.

(** The value of an [int] literal in base 10 after leading whitespace. *)
Fixpoint int_literal (s : string) : option Z :=
  match s with
  | EmptyString => None
  | String c s' => if is_space c then int_literal s' else int_signed s
  end.

Fixpoint count_digits (s : string) : nat :=
  match s with
  | EmptyString => O
  | String c s' => if is_digit c then S (count_digits s') else count_digits s'
  end.

(** [int(s)] for a [str] in base 10; [None] stands for [ValueError]. A
    literal of more than [MAX_STR_DIGITS] digits is refused, leading zeros
    counted, underscores not. *)
Definition int_of_str (s : string) : option Z :=
  if (MAX_STR_DIGITS <? count_digits s)%nat then None else int_literal s.

Definition int (s : string) : result Z :=
  match int_of_str s with
  | Some n => Ok n
  | None => Raise ValueError
  end.

(** [s.startswith(prefix)] *)
Fixpoint startswith (s prefix : string) {struct prefix} : bool :=
  match prefix, s with
  | EmptyString, _ => true
  | String a prefix', String b s' => Ascii.eqb a b && startswith s' prefix'
  | String _ _, EmptyString => false
  end.

Example str_0 : str 0 = "0". Proof. reflexivity. Qed.
Example str_42 : str 42 = "42". Proof. reflexivity. Qed.
Example str_neg : str (-120) = "-120". Proof. reflexivity. Qed.
Example int_plain : int_of_str "30" = Some 30. Proof. reflexivity. Qed.
Example int_padded : int_of_str "  -1_000 " = Some (-1000). Proof. reflexivity. Qed.
Example int_bad : int_of_str "12a" = None. Proof. reflexivity. Qed.
Example int_empty : int_of_str "" = None. Proof. reflexivity. Qed.
Example int_only_sign : int_of_str "-" = None. Proof. reflexivity. Qed.
Example int_double_underscore : int_of_str "1__0" = None. Proof. reflexivity. Qed.
Example int_sign_then_space : int_of_str "+ 5" = None. Proof. reflexivity. Qed.
Example int_leading_zeros : int_of_str "0_07" = Some 7. Proof. reflexivity. Qed.
Example int_no_break_space :
  int_of_str (String (ascii_of_nat 160) "45") = Some 45.
Proof. reflexivity. Qed.
Example int_next_line :
  int_of_str (String "5" (String (ascii_of_nat 133) "")) = Some 5.
Proof. reflexivity. Qed.
Example int_file_separator :
  int_of_str (String (ascii_of_nat 28) "5") = None.
Proof. reflexivity. Qed.

Fixpoint repeat_string (n : nat) (s : string) : string :=
  match n with
  | O => EmptyString
  | S n' => s +:+ repeat_string n' s
  end.

Example int_4300_digits :
  int_of_str (repeat_string 4300 "0") = Some 0.
Proof. vm_compute. reflexivity. Qed.
Example int_4301_digits :
  int_of_str (repeat_string 4301 "0") = None.
Proof. vm_compute. reflexivity. Qed.












End Py.

(** ** JSON values *)

(** A [float]: a finite one is given by a fraction that denotes its
    value. *)
Inductive pyfloat : Type :=
  | Finite (num : Z) (den : positive)
  | Infinity (negative : bool)
  | NaN.

(** Values of a JSON document as [json.loads] returns them: a number
    written without fraction and exponent is an [int], any other a
    [float], with [Infinity], [-Infinity] and [NaN] accepted. *)
#[warnings="-register-all"]
Inductive json : Type :=
  | JNull
  | JBool (b : bool)
  | JInt (n : Z)
  | JFloat (f : pyfloat)
  | JStr (s : string)
  | JList (l : list json)
  | JObject (members : list (string * json)).

(** Values of the dictionary handed to [jwt.encode]: JSON values, or a
    [datetime] (microseconds since the epoch). *)
Inductive pyval : Type :=
  | PJson (j : json)
  | PDatetime (t : Z).

(** [int(f)] for a [float]: truncation towards zero. *)
Definition int_of_float (f : pyfloat) : result Z :=
  match f with
  | Finite num den => Ok (Z.quot num (Z.pos den))
  | Infinity _ => Raise OverflowError
  | NaN => Raise ValueError
  end.

(** [int(v)] for a value read from a JSON document. *)
Definition int_of_json (v : json) : result Z :=
  match v with
  | JInt n => Ok n
  | JBool b => Ok (if b then 1 else 0)
  | JFloat f => int_of_float f
  | JStr s => Py.int s
  | JNull | JList _ | JObject _ => Raise TypeError
  end.

Definition is_JStr (v : json) : bool :=
  match v with
  | JStr _ => true
  | _ => false
  end.

(** ** [datetime] and [timedelta] *)

(** [calendar.timegm(t.utctimetuple())]: whole seconds, microseconds dropped. *)
Definition timegm (t : Z) : Z := t / 1000000.

(** The length of [m] minutes. *)
Definition timedelta_minutes (m : Z) : Z := m * 60 * 1000000.

(** [datetime.min] and [datetime.max]: the first microsecond of year 1 and
    the last of year 9999. *)
Definition DATETIME_MIN : Z := -62135596800000000.
Definition DATETIME_MAX : Z := 253402300799999999.

(** The largest number of days of a [timedelta], either way. *)
Definition TIMEDELTA_MAX_DAYS : Z := 999999999.

(** [timedelta(minutes=m)]: refused when the days leave the range. *)
Definition timedelta (m : Z) : result Z :=
  let days := m / 1440 in
  if (- TIMEDELTA_MAX_DAYS <=? days) && (days <=? TIMEDELTA_MAX_DAYS)
  then Ok (timedelta_minutes m)
  else Raise OverflowError.

(** [t + d] for a [datetime] and a [timedelta]: refused when the sum is
    not a [datetime]. *)
Definition datetime_add (t d : Z) : result Z :=
  if (DATETIME_MIN <=? t + d) && (t + d <=? DATETIME_MAX)
  then Ok (t + d)
  else Raise OverflowError.

(** ** The JOSE library: [jose.jwt.encode] and [jose.jwt.decode]

    The compact serialization is kept in parsed form. A token is a string
    that does not parse as three base64url segments with a JSON header
    ([Malformed]), a string whose header segment holds JSON nested beyond
    the interpreter's recursion limit ([DeepHeader]), or the header's
    [alg], the payload and the signature bytes. The payload is a JSON
    object, a text that is no JSON object, or JSON nested beyond the
    recursion limit. The keyed hash itself is a parameter [mac] of the
    model: it maps the algorithm, the key and the signing input to the
    signature. The key is a shared secret; key strings that hold a
    serialised asymmetric key are not covered. *)
Module Jose.

Definition claims := gmap string json.

Inductive payload : Type :=
  | Object (c : claims)
  | NotObject
  | TooDeep (raw : string).

Definition signing_input : Type := string * payload.

Inductive token : Type :=
  | Malformed (raw : string)
  | DeepHeader (raw : string)
  | Compact (alg : string) (p : payload) (signature : string).

(** Algorithms usable with a shared secret string. *)
Definition HMAC_ALGORITHMS : list string := ["HS256"; "HS384"; "HS512"].

Definition TIME_CLAIMS : list string := ["exp"; "iat"; "nbf"].

(** [int(claims[name])] inside a claim validator: a [ValueError] becomes
    [JWTClaimsError], any other exception escapes unchanged. *)
Definition claim_int (c : claims) (name : string) : result (option Z) :=
  match c !! name with
  | None => Ok None
  | Some v =>
      match int_of_json v with
      | Ok n => Ok (Some n)
      | Raise e => if isinstance_ValueError e then Raise JWTClaimsError else Raise e
      end
  end.

Definition validate_iat (c : claims) : result unit :=
  _ ← claim_int c "iat"; Ok tt.

Definition validate_nbf (now : Z) (c : claims) : result unit :=
  nbf ← claim_int c "nbf";
  match nbf with
  | None => Ok tt
  | Some nbf => if timegm now <? nbf then Raise JWTClaimsError else Ok tt
  end.

(** The token is rejected when [exp < now], both in whole seconds. *)
Definition validate_exp (now : Z) (c : claims) : result unit :=
  exp ← claim_int c "exp";
  match exp with
  | None => Ok tt
  | Some exp => if exp <? timegm now then Raise ExpiredSignatureError else Ok tt
  end.

(** [decode] is called without an [audience]: a token that carries an
    [aud] claim never matches it. *)
Definition validate_aud (c : claims) : result unit :=
  match c !! "aud" with
  | None => Ok tt
  | Some _ => Raise JWTClaimsError
  end.

Definition validate_str_claim (name : string) (c : claims) : result unit :=
  match c !! name with
  | None => Ok tt
  | Some v => if is_JStr v then Ok tt else Raise JWTClaimsError
  end.

(** [decode] is called without an [access_token]. *)
Definition validate_at_hash (c : claims) : result unit :=
  match c !! "at_hash" with
  | None => Ok tt
  | Some _ => Raise JWTClaimsError
  end.

Definition validate_claims (now : Z) (c : claims) : result unit :=
  validate_iat c;;
  validate_nbf now c;;
  validate_exp now c;;
  validate_aud c;;
  validate_str_claim "sub" c;;
  validate_str_claim "jti" c;;
  validate_at_hash c.

Definition encode_time_claim (k : string) (v : pyval) : pyval :=
  match v with
  | PDatetime t => if bool_decide (k ∈ TIME_CLAIMS) then PJson (JInt (timegm t)) else v
  | PJson _ => v
  end.

Definition to_json (v : pyval) : option json :=
  match v with
  | PJson j => Some j
  | PDatetime _ => None
  end.

Section with_mac.

Variable mac : string -> string -> signing_input -> string.

(** [jwt.encode(claims, key, algorithm=algorithm)]: [datetime] values of
    the time claims become whole seconds, signing needs an algorithm that
    works with a secret string, and the payload must serialize to JSON. *)
Definition encode (c : gmap string pyval) (key algorithm : string) : result token :=
  let c := map_imap (fun k v => Some (encode_time_claim k v)) c in
  if negb (bool_decide (algorithm ∈ HMAC_ALGORITHMS)) then Raise JWSError
  else if negb (bool_decide (map_Forall (fun _ v => is_Some (to_json v)) c))
  then Raise TypeError
  else
    let p := Object (omap to_json c) in
    Ok (Compact algorithm p (mac algorithm key (algorithm, p))).

(** [jws.verify]: header and signature checks, in the library's order. A
    failed check reaches the caller of [jwt.decode] as [JWTError]. The key
    object is built for the header's algorithm before the signatures are
    compared: with a secret string and an algorithm outside the HMAC
    family that fails with [JWKError], which is not a [JWTError]. *)
Definition verify_signature (alg : string) (p : payload)
    (signature key : string) (algorithms : list string) : result unit :=
  if bool_decide (alg = "") then Raise JWTError
  else if negb (bool_decide (alg ∈ algorithms)) then Raise JWTError
  else if negb (bool_decide (alg ∈ HMAC_ALGORITHMS)) then Raise JWKError
  else if bool_decide (signature = mac alg key (alg, p)) then Ok tt
  else Raise JWTError.

(** [jwt.decode(token, key, algorithms=algorithms)] at clock reading
    [now]. The header is parsed first, the payload only after the
    signature has been verified; [json.loads] raises [RecursionError] on
    JSON nested too deep, which none of the library's handlers catches. *)
Definition decode (now : Z) (t : token) (key : string)
    (algorithms : list string) : result claims :=
  match t with
  | Malformed _ => Raise JWTError
  | DeepHeader _ => Raise RecursionError
  | Compact alg p signature =>
      verify_signature alg p signature key algorithms;;
      match p with
      | NotObject => Raise JWTError
      | TooDeep _ => Raise RecursionError
      | Object c => validate_claims now c;; Ok c
      end
  end.

End with_mac.

End Jose.

(** ** The passlib library: [CryptContext(schemes=["pbkdf2_sha256"])]

    The context recognises a digest of its scheme by the prefix
    ["$pbkdf2-sha256$"]. What lies behind the prefix is the business of the
    scheme's handler: the key derivation function, the parser of a digest
    string and its printer. The fresh salt that [hash] draws is an explicit
    argument. *)
Module Passlib.

Definition MAX_PASSWORD_SIZE : nat := 4096.
Definition ident : string := "$pbkdf2-sha256$".
Definition default_rounds : Z := 29000.

Record handler : Type := {
  (** [pbkdf2 secret salt rounds]: the derived checksum. *)
  pbkdf2 : string -> string -> Z -> string;
  (** [from_string digest]: rounds, salt and checksum of a digest (no
      checksum when the digest ends after the salt), or the exception
      raised for a digest that does not parse. *)
  from_string : string -> result (Z * string * option string);
  (** [to_string rounds salt checksum]: the digest string. *)
  to_string : Z -> string -> string -> string
}.

(** [handler.identify(hash)] *)
Definition identify (h : string) : bool := Py.startswith h ident.

Definition validate_secret (secret : string) : result unit :=
  if (MAX_PASSWORD_SIZE <? String.length secret)%nat
  then Raise PasswordSizeError else Ok tt.

Section with_handler.

Variable H : handler.

(** [pwd_context.hash(secret)] with the drawn [salt]. *)
Definition hash (salt secret : string) : result string :=
  validate_secret secret;;
  Ok (to_string H default_rounds salt (pbkdf2 H secret salt default_rounds)).

(** [pwd_context.verify(secret, hash)]: the context first identifies the
    scheme (an empty digest is refused with a plain [ValueError]), then the
    handler checks the secret, parses the digest and compares
    checksums. *)
Definition verify (secret h : string) : result bool :=
  if negb (identify h) then
    if bool_decide (h = "") then Raise ValueError else Raise UnknownHashError
  else
    validate_secret secret;;
    '(rounds, salt, chk) ← from_string H h;
    match chk with
    | None => Raise MissingDigestError
    | Some chk => Ok (bool_decide (pbkdf2 H secret salt rounds = chk))
    end.

End with_handler.

End Passlib.

(** ** The scheme's handler: [passlib.hash.pbkdf2_sha256]

    A digest is ["$pbkdf2-sha256$<rounds>$<salt>$<checksum>"], salt and
    checksum written in the library's base64 variant: the standard
    alphabet with ["."] in the place of ["+"], padding left out. The key
    derivation function is a parameter [kdf]; it yields the 32 bytes of
    the checksum. *)
Module Pbkdf2.

Definition min_rounds : Z := 1.
Definition max_rounds : Z := 4294967295.
Definition max_salt_size : nat := 1024.
Definition checksum_size : nat := 32.

Record derived_key : Type := {
  key_bytes : string;
  key_length : String.length key_bytes = checksum_size
}.

Local Open Scope N_scope.

(** The character of a 6-bit value. *)
Definition b64_char (v : N) : ascii :=
  if v <? 26 then ascii_of_N (65 + v)
  else if v <? 52 then ascii_of_N (71 + v)
  else if v <? 62 then ascii_of_N (v - 4)
  else if v =? 62 then "."%char
  else "/"%char.

(** The 6-bit value of a character, after ["."] has been replaced by
    ["+"]; [None] for a character outside the alphabet. *)
Definition b64_val (c : ascii) : option N :=
  let n := N_of_ascii c in
  if (65 <=? n) && (n <=? 90) then Some (n - 65)
  else if (97 <=? n) && (n <=? 122) then Some (n - 71)
  else if (48 <=? n) && (n <=? 57) then Some (n + 4)
  else if (n =? 43) || (n =? 46) then Some 62
  else if n =? 47 then Some 63
  else None.

Definition is_pad (c : ascii) : bool := N_of_ascii c =? 61.
Definition is_dollar (c : ascii) : bool := N_of_ascii c =? 36.
Definition is_ascii (c : ascii) : bool := N_of_ascii c <? 128.

(** [ab64_encode(data)]: three bytes become four characters, a rest of
    one or two bytes becomes two or three. *)
Fixpoint ab64_encode (data : string) : string :=
  match data with
  | EmptyString => EmptyString
  | String a EmptyString =>
      let a := N_of_ascii a in
      String (b64_char (a / 4)) (String (b64_char (a mod 4 * 16)) EmptyString)
  | String a (String b EmptyString) =>
      let a := N_of_ascii a in
      let b := N_of_ascii b in
      String (b64_char (a / 4))
        (String (b64_char (a mod 4 * 16 + b / 16))
           (String (b64_char (b mod 16 * 4)) EmptyString))
  | String a (String b (String c rest)) =>
      let a := N_of_ascii a in
      let b := N_of_ascii b in
      let c := N_of_ascii c in
      String (b64_char (a / 4))
        (String (b64_char (a mod 4 * 16 + b / 16))
           (String (b64_char (b mod 16 * 4 + c / 64))
              (String (b64_char (c mod 64)) (ab64_encode rest))))
  end.

Definition emit (byte : N) (rest : option string) : option string :=
  String (ascii_of_N byte) <$> rest.

(** [binascii.a2b_base64(data)], not strict: characters outside the
    alphabet are skipped, a complete run of padding ends the data, and the
    data must end on a full group of four. [quad_pos] is the position in
    the group, [leftchar] the bits left over, [pads] the padding seen. *)
Fixpoint a2b_base64 (data : string) (quad_pos : nat) (leftchar : N) (pads : nat)
    : option string :=
  match data with
  | EmptyString => if (quad_pos =? 0)%nat then Some EmptyString else None
  | String c rest =>
      if is_pad c then
        if (2 <=? quad_pos)%nat && (4 <=? quad_pos + S pads)%nat
        then Some EmptyString
        else a2b_base64 rest quad_pos leftchar
               (if (2 <=? quad_pos)%nat then S pads else pads)
      else
        match b64_val c with
        | None => a2b_base64 rest quad_pos leftchar pads
        | Some v =>
            match quad_pos with
            | 0%nat => a2b_base64 rest 1 v 0
            | 1%nat => emit (leftchar * 4 + v / 16) (a2b_base64 rest 2 (v mod 16) 0)
            | 2%nat => emit (leftchar * 16 + v / 4) (a2b_base64 rest 3 (v mod 4) 0)
            | _ => emit (leftchar * 64 + v) (a2b_base64 rest 0 0 0)
            end
        end
  end.

Fixpoint all_ascii (s : string) : bool :=
  match s with
  | EmptyString => true
  | String c s' => is_ascii c && all_ascii s'
  end.

(** The padding that [b64s_decode] puts back, by the length modulo 4. *)
Definition padding (len : nat) : string :=
  match (len mod 4)%nat with
  | 2%nat => "=="
  | 3%nat => "="
  | _ => ""
  end.

(** [ab64_decode(data.encode("ascii"))]: [UnicodeEncodeError] for a
    character above U+007F, [ValueError] for a length of one more than a
    multiple of four, [TypeError] when the decoder refuses the data. *)
Definition ab64_decode (data : string) : result string :=
  if negb (all_ascii data) then Raise ValueError
  else if (String.length data mod 4 =? 1)%nat then Raise ValueError
  else
    match a2b_base64 (data +:+ padding (String.length data)) 0 0 0 with
    | Some bytes => Ok bytes
    | None => Raise TypeError
    end.

Local Close Scope N_scope.

(** [s.split("$")] *)
Fixpoint split_dollar (s : string) : list string :=
  match s with
  | EmptyString => [EmptyString]
  | String c s' =>
      if is_dollar c then EmptyString :: split_dollar s'
      else
        match split_dollar s' with
        | part :: parts => String c part :: parts
        | [] => [String c EmptyString]
        end
  end.

Fixpoint strip_prefix (p s : string) {struct p} : option string :=
  match p, s with
  | EmptyString, _ => Some s
  | String a p', String b s' => if Ascii.eqb a b then strip_prefix p' s' else None
  | String _ _, EmptyString => None
  end.

(** The rounds field as [parse_mc3] reads it: not zero padded, not empty,
    an [int] literal. *)
Definition parse_rounds (s : string) : result Z :=
  if Py.startswith s "0" && negb (String.eqb s "0") then Raise MalformedHashError
  else if String.eqb s "" then Raise MalformedHashError
  else Py.int s.

(** [parse_mc3]: the text behind the prefix has three fields, or two when
    the checksum is left out; an empty checksum counts as left out. *)
Definition parse_mc3 (h : string) : result (Z * string * option string) :=
  match strip_prefix Passlib.ident h with
  | None => Raise MalformedHashError
  | Some rest =>
      match split_dollar rest with
      | [rounds; salt; chk] =>
          rounds ← parse_rounds rounds;
          Ok (rounds, salt, if String.eqb chk "" then None else Some chk)
      | [rounds; salt] =>
          rounds ← parse_rounds rounds;
          Ok (rounds, salt, None)
      | _ => Raise MalformedHashError
      end
  end.

(** [from_string]: the fields are split and decoded, then the handler is
    built from them, which checks the size of the checksum, the size of the
    salt and the range of the rounds, in this order. *)
Definition from_string (h : string) : result (Z * string * option string) :=
  '(rounds, salt, chk) ← parse_mc3 h;
  salt ← ab64_decode salt;
  chk ← match chk with
        | Some chk => chk ← ab64_decode chk; Ok (Some chk)
        | None => Ok None
        end;
  match chk with
  | Some chk =>
      if negb (String.length chk =? checksum_size)%nat then Raise ValueError else Ok tt
  | None => Ok tt
  end;;
  (if (max_salt_size <? String.length salt)%nat then Raise ValueError else Ok tt);;
  (if negb ((min_rounds <=? rounds) && (rounds <=? max_rounds)) then Raise ValueError
   else Ok tt);;
  Ok (rounds, salt, chk).

(** [to_string] *)
Definition to_string (rounds : Z) (salt chk : string) : string :=
  Passlib.ident +:+ Py.str rounds +:+ "$" +:+ ab64_encode salt +:+ "$" +:+ ab64_encode chk.

Definition handler (kdf : string -> string -> Z -> derived_key) : Passlib.handler :=
  {| Passlib.pbkdf2 := fun secret salt rounds => key_bytes (kdf secret salt rounds);
     Passlib.from_string := from_string;
     Passlib.to_string := to_string |}.

Example encode_salt : ab64_encode "salt" = "c2FsdA". Proof. reflexivity. Qed.
Example encode_dots : ab64_encode (String (ascii_of_nat 251) (String (ascii_of_nat 239) ""))
                      = "..8".
Proof. reflexivity. Qed.
Example decode_salt : ab64_decode "c2FsdA" = Ok "salt". Proof. reflexivity. Qed.
Example decode_bad_length : ab64_decode "c2Fsd" = Raise ValueError.
Proof. reflexivity. Qed.
Example decode_skips : ab64_decode "c2Fs!!!!" = Ok "sal". Proof. reflexivity. Qed.
Example decode_refused : ab64_decode "c2!!FsdA" = Raise TypeError. Proof. reflexivity. Qed.
Example decode_refused_short : ab64_decode "c2F!" = Raise TypeError. Proof. reflexivity. Qed.
Example decode_padded : ab64_decode "c2FsdA==" = Ok "salt". Proof. reflexivity. Qed.
Example decode_inner_pad : ab64_decode "c2Fs=dA" = Raise TypeError. Proof. reflexivity. Qed.
Example decode_one_pad : ab64_decode "=" = Raise ValueError. Proof. reflexivity. Qed.
Example decode_two_pads : ab64_decode "==" = Ok "". Proof. reflexivity. Qed.
Example decode_early_pads : ab64_decode "c2==" = Ok "s". Proof. reflexivity. Qed.
Example parse_no_prefix : from_string "not-a-hash" = Raise MalformedHashError.
Proof. reflexivity. Qed.
Example parse_no_checksum :
  from_string "$pbkdf2-sha256$29000$c2FsdA" = Ok (29000, "salt", None).
Proof. reflexivity. Qed.
Example parse_padded_rounds :
  from_string "$pbkdf2-sha256$029000$c2FsdA$YWJjZGVmZ2hpamtsbW5vcHFyc3R1dnd4eXowMTIzNDU"
  = Raise MalformedHashError.
Proof. reflexivity. Qed.
Example parse_good :
  from_string "$pbkdf2-sha256$29000$c2FsdA$YWJjZGVmZ2hpamtsbW5vcHFyc3R1dnd4eXowMTIzNDU"
  = Ok (29000, "salt", Some "abcdefghijklmnopqrstuvwxyz012345").
Proof. reflexivity. Qed.
Example parse_short_checksum :
  from_string "$pbkdf2-sha256$29000$c2FsdA$YWJj" = Raise ValueError.
Proof. reflexivity. Qed.
Example parse_no_rounds :
  from_string "$pbkdf2-sha256$0$c2FsdA$YWJjZGVmZ2hpamtsbW5vcHFyc3R1dnd4eXowMTIzNDU"
  = Raise ValueError.
Proof. reflexivity. Qed.

(** *** The handler parses what it prints *)

Definition is_ab64 (c : ascii) : bool :=
  match b64_val c with
  | Some _ => negb (is_pad c) && negb (is_dollar c) && is_ascii c
  | None => false
  end.

Fixpoint all_ab64 (s : string) : bool :=
  match s with
  | EmptyString => true
  | String c s' => is_ab64 c && all_ab64 s'
  end.

Lemma b64_val_char (v : N) :
  (v < 64)%N -> b64_val (b64_char v) = Some v /\ is_ab64 (b64_char v) = true.
Proof.
  intros Hv.
  assert (exists n : nat, (n < 64)%nat /\ v = N.of_nat n) as (n & Hn & ->).
  { exists (N.to_nat v). split; [lia | now rewrite N2Nat.id]. }
  do 64 (destruct n as [| n]; [split; reflexivity |]). lia.
Qed.

Lemma is_ab64_inv (c : ascii) :
  is_ab64 c = true ->
  is_pad c = false /\ is_dollar c = false /\ is_ascii c = true /\
  exists v, b64_val c = Some v.
Proof.
  unfold is_ab64. destruct (b64_val c) as [v |]; [| discriminate].
  intros H. apply andb_true_iff in H as [H Ha]. apply andb_true_iff in H as [Hp Hd].
  apply negb_true_iff in Hp. apply negb_true_iff in Hd. eauto 6.
Qed.

Lemma string_ind3 (P : string -> Prop) :
  P EmptyString ->
  (forall a, P (String a EmptyString)) ->
  (forall a b, P (String a (String b EmptyString))) ->
  (forall a b c s, P s -> P (String a (String b (String c s)))) ->
  forall s, P s.
Proof.
  intros H0 H1 H2 H3. fix IH 1.
  intros [| a [| b [| c s]]]; [exact H0 | apply H1 | apply H2 | apply H3, IH].
Qed.

(** Arithmetic with division by constants. *)
Ltac divmod_lia := zify; Z.to_euclidean_division_equations; lia.

Ltac byte_bounds :=
  repeat match goal with
         | |- context [N_of_ascii ?a] =>
             lazymatch goal with
             | _ : (N_of_ascii a < 256)%N |- _ => fail
             | _ => pose proof (N_ascii_bounded a)
             end
         end.

Ltac ab64_chars :=
  repeat match goal with
         | |- context [is_ab64 (b64_char ?v)] =>
             let H := fresh in
             assert (is_ab64 (b64_char v) = true) as H
               by (apply b64_val_char; divmod_lia);
             rewrite H; clear H; cbn [andb]
         end.

Lemma ab64_encode_ab64 (data : string) : all_ab64 (ab64_encode data) = true.
Proof.
  induction data as [| a | a b | a b c s IH] using string_ind3;
    cbn [ab64_encode all_ab64]; [reflexivity | ..]; byte_bounds; ab64_chars;
    [reflexivity | reflexivity | exact IH].
Qed.

Lemma ab64_encode_length (a b c : ascii) (s : string) :
  String.length (ab64_encode (String a (String b (String c s))))
  = (4 + String.length (ab64_encode s))%nat.
Proof. reflexivity. Qed.

Lemma a2b_base64_char (v : N) (rest : string) (quad_pos : nat) (leftchar : N)
    (pads : nat) :
  (v < 64)%N ->
  a2b_base64 (String (b64_char v) rest) quad_pos leftchar pads
  = match quad_pos with
    | 0%nat => a2b_base64 rest 1 v 0
    | 1%nat => emit (leftchar * 4 + v / 16) (a2b_base64 rest 2 (v mod 16) 0)
    | 2%nat => emit (leftchar * 16 + v / 4) (a2b_base64 rest 3 (v mod 4) 0)
    | _ => emit (leftchar * 64 + v) (a2b_base64 rest 0 0 0)
    end.
Proof.
  intros Hv. destruct (b64_val_char v Hv) as [Hval Hab].
  apply is_ab64_inv in Hab as (Hp & _ & _ & _).
  cbn [a2b_base64]. now rewrite Hp, Hval.
Qed.

Lemma append_cons (c : ascii) (s t : string) : String c s +:+ t = String c (s +:+ t).
Proof. reflexivity. Qed.

Lemma append_nil (t : string) : "" +:+ t = t.
Proof. reflexivity. Qed.

Lemma byte_eq (a : ascii) (n : N) : n = N_of_ascii a -> ascii_of_N n = a.
Proof. intros ->. apply ascii_N_embedding. Qed.

Lemma a2b_base64_pad2 (leftchar : N) : a2b_base64 "==" 2 leftchar 0 = Some "".
Proof. reflexivity. Qed.

Lemma a2b_base64_pad1 (leftchar : N) : a2b_base64 "=" 3 leftchar 0 = Some "".
Proof. reflexivity. Qed.

Lemma padding_add4 (n : nat) : padding (4 + n) = padding n.
Proof.
  unfold padding.
  replace ((4 + n) mod 4)%nat with (n mod 4)%nat; [reflexivity |].
  rewrite <- Nat.Div0.add_mod_idemp_l. reflexivity.
Qed.

Lemma mod4_add4 (n : nat) : ((4 + n) mod 4 = n mod 4)%nat.
Proof. rewrite <- Nat.Div0.add_mod_idemp_l. reflexivity. Qed.

(** Decoding what [ab64_encode] printed gives the bytes back. *)
Lemma a2b_base64_encode (data : string) :
  (String.length (ab64_encode data) mod 4 =? 1)%nat = false /\
  forall leftchar pads,
    a2b_base64 (ab64_encode data +:+ padding (String.length (ab64_encode data)))
      0 leftchar pads = Some data.
Proof.
  induction data as [| a | a b | a b c s IH] using string_ind3.
  - split; reflexivity.
  - split; [reflexivity |]. intros l p.
    cbn [ab64_encode String.length]. change (padding 2) with "==".
    rewrite !append_cons, append_nil. byte_bounds.
    rewrite !a2b_base64_char by divmod_lia. rewrite a2b_base64_pad2.
    unfold emit. cbn [fmap option_fmap option_map].
    do 2 f_equal. apply byte_eq. divmod_lia.
  - split; [reflexivity |]. intros l p.
    cbn [ab64_encode String.length]. change (padding 3) with "=".
    rewrite !append_cons, append_nil. byte_bounds.
    rewrite !a2b_base64_char by divmod_lia. rewrite a2b_base64_pad1.
    unfold emit. cbn [fmap option_fmap option_map].
    do 2 f_equal; [| f_equal]; apply byte_eq; divmod_lia.
  - destruct IH as [Hlen IH]. split.
    + rewrite ab64_encode_length, mod4_add4. exact Hlen.
    + intros l p. rewrite ab64_encode_length, padding_add4.
      cbn [ab64_encode]. rewrite !append_cons. byte_bounds.
      rewrite !a2b_base64_char by divmod_lia. rewrite IH.
      unfold emit. cbn [fmap option_fmap option_map].
      do 2 f_equal; [| f_equal; [| f_equal]]; apply byte_eq; divmod_lia.
Qed.

Lemma all_ab64_ascii (s : string) : all_ab64 s = true -> all_ascii s = true.
Proof.
  induction s as [| c s IH]; [reflexivity |]. cbn [all_ab64 all_ascii].
  intros H. apply andb_true_iff in H as [Hc Hs].
  apply is_ab64_inv in Hc as (_ & _ & -> & _). now rewrite IH.
Qed.

Lemma ab64_decode_encode (data : string) : ab64_decode (ab64_encode data) = Ok data.
Proof.
  unfold ab64_decode.
  rewrite (all_ab64_ascii _ (ab64_encode_ab64 data)). cbn [negb].
  destruct (a2b_base64_encode data) as [-> ->]. reflexivity.
Qed.

Lemma split_dollar_ab64 (a : string) :
  all_ab64 a = true -> split_dollar a = [a].
Proof.
  induction a as [| c a IH]; [reflexivity |]. cbn [all_ab64 split_dollar].
  intros H. apply andb_true_iff in H as [Hc Ha].
  apply is_ab64_inv in Hc as (_ & -> & _). now rewrite (IH Ha).
Qed.

Lemma split_dollar_app (a r : string) :
  all_ab64 a = true ->
  split_dollar (a +:+ String "$" r) = a :: split_dollar r.
Proof.
  induction a as [| c a IH]; [reflexivity |]. cbn [all_ab64].
  intros H. apply andb_true_iff in H as [Hc Ha].
  apply is_ab64_inv in Hc as (_ & Hd & _).
  simpl. rewrite Hd. now rewrite (IH Ha).
Qed.

Lemma identify_to_string (rounds : Z) (salt chk : string) :
  Passlib.identify (to_string rounds salt chk) = true.
Proof. reflexivity. Qed.

(** Parsing the digest that [to_string] prints with the default rounds
    gives back the salt and the checksum, for every salt the scheme
    allows and every checksum of the scheme's size. *)
Lemma from_string_to_string (salt chk : string) :
  (String.length salt <= max_salt_size)%nat ->
  String.length chk = checksum_size ->
  from_string (to_string Passlib.default_rounds salt chk)
  = Ok (Passlib.default_rounds, salt, Some chk).
Proof.
  intros Hsalt Hchk. unfold from_string, parse_mc3, to_string.
  change (strip_prefix Passlib.ident
            (Passlib.ident +:+ Py.str Passlib.default_rounds +:+ "$"
               +:+ ab64_encode salt +:+ "$" +:+ ab64_encode chk))
    with (Some ("29000" +:+ String "$" (ab64_encode salt +:+ String "$" (ab64_encode chk)))).
  cbv beta iota.
  rewrite (split_dollar_app "29000" _ eq_refl).
  rewrite (split_dollar_app _ _ (ab64_encode_ab64 salt)).
  rewrite (split_dollar_ab64 _ (ab64_encode_ab64 chk)).
  change (parse_rounds "29000") with (Ok Passlib.default_rounds).
  cbn [mbind result_bind].
  assert (String.eqb (ab64_encode chk) "" = false) as ->.
  { destruct chk as [| a [| b [| c chk]]]; [discriminate Hchk | reflexivity ..]. }
  cbn [mbind result_bind].
  rewrite !ab64_decode_encode. cbn [mbind result_bind].
  rewrite Hchk, Nat.eqb_refl. cbn [negb mbind result_bind].
  destruct (Nat.ltb_spec max_salt_size (String.length salt)); [lia |].
  reflexivity.
Qed.

End Pbkdf2.

(** ** [backend/config.py] *)

Module Config.

Record Settings : Type := {
  DATABASE_URL : string;
  SECRET_KEY : string;
  ALGORITHM : string;
  ACCESS_TOKEN_EXPIRE_MINUTES : Z;
  API_V1_STR : string;
  PROJECT_NAME : string;
  MOCK_USER_ID : Z
}.

(** The secret written in the source as the last fallback. *)
Definition BUILTIN_SECRET : string := "KPUqFcCE/cmK7jg73LieWXczeHwnHlb4Hde1EcVrbCo=".

(** [os.getenv(key, default)] over the process environment, as it is after
    [load_dotenv] has merged the [.env] file into it. *)
Definition getenv (environ : gmap string string) (key default : string) : string :=
  match environ !! key with
  | Some v => v
  | None => default
  end.

(** Evaluation of the body of [class Settings] followed by [Settings()]:
    the only step that can raise is [int(...)] on the expiry minutes. *)
Definition load_settings (environ : gmap string string) : result Settings :=
  let database_url := getenv environ "DATABASE_URL" "sqlite+aiosqlite:///./todo_app.db" in
  let secret_key :=
    getenv environ "SECRET_KEY" (getenv environ "AUTH_SECRET" BUILTIN_SECRET) in
  let algorithm := getenv environ "ALGORITHM" "HS256" in
  minutes ← Py.int (getenv environ "ACCESS_TOKEN_EXPIRE_MINUTES" "30");
  Ok {| DATABASE_URL := database_url;
        SECRET_KEY := secret_key;
        ALGORITHM := algorithm;
        ACCESS_TOKEN_EXPIRE_MINUTES := minutes;
        API_V1_STR := "/api/v1";
        PROJECT_NAME := "Todo App Backend API";
        MOCK_USER_ID := 1 |}.

End Config.

(** ** [backend/models] and [backend/schemas] *)

Module User.
Record t : Type := {
  id : Z;
  email : string;
  created_at : Z;
  hashed_password : string;
  is_active : bool
}.
End User.

Module UserRead.
Record t : Type := {
  id : Z;
  email : string;
  created_at : Z;
  is_active : bool
}.
End UserRead.

Module UserCreate.
Record t : Type := { email : string; password : string }.
End UserCreate.

Module OAuth2PasswordRequestForm.
Record t : Type := { username : string; password : string }.
End OAuth2PasswordRequestForm.

Module Token.
Record t : Type := { access_token : Jose.token; token_type : string }.
End Token.

Module Task.
Record t : Type := {
  id : Z;
  title : string;
  description : option string;
  completed : bool;
  user_id : Z;
  created_at : Z;
  updated_at : Z
}.
End Task.

(** [schemas.task.TaskCreate], the body schema of the create endpoint: a
    title, an optional description and the completed flag. *)
Module TaskCreate.
Record t : Type := {
  title : string;
  description : option string;
  completed : bool
}.
End TaskCreate.

(** A field of a partial update: left out of the request body, or given
    (possibly as [null]). [model_dump(exclude_unset=True)] keeps exactly
    the given ones. *)
Inductive field (A : Type) : Type :=
  | Unset
  | Given (v : option A).
Arguments Unset {A}.
Arguments Given {A} v.

Module TaskUpdate.
Record t : Type := {
  title : field string;
  description : field string;
  completed : field bool
}.
End TaskUpdate.

Module TaskRead.
Record t : Type := {
  title : string;
  description : option string;
  completed : bool;
  id : Z;
  user_id : Z;
  created_at : Z;
  updated_at : Z
}.
End TaskRead.

(** ** The database session *)

Record database : Type := {
  users : list User.t;
  tasks : list Task.t
}.

(** [Result.scalar_one_or_none()] *)
Definition scalar_one_or_none {A : Type} (rows : list A) : result (option A) :=
  match rows with
  | [] => Ok None
  | [row] => Ok (Some row)
  | _ => Raise MultipleResultsFound
  end.

(** The key an integer primary key column gives to a new row. *)
Definition next_id (ids : list Z) : Z := foldr Z.max 0 ids + 1.

(** [select(User).where(User.email == email)] *)
Definition select_user_by_email (db : database) (email : string) : list User.t :=
  filter (fun u => User.email u = email) (users db).

(** [select(Task).where(Task.user_id == user_id)] *)
Definition select_tasks_by_user (db : database) (user_id : Z) : list Task.t :=
  filter (fun t => Task.user_id t = user_id) (tasks db).


(** [select(Task).where(Task.id == id, Task.user_id == user_id)], for an
    [id] that the column can hold. The driver refuses to bind any other
    [id], which the handlers answer with 500; the model does not cover
    such a request. *)
Definition select_task (db : database) (id user_id : Z) : list Task.t :=
  filter (fun t => Task.id t = id /\ Task.user_id t = user_id) (tasks db).

(** [add], [commit], [refresh] of a new user: the unique constraint on
    [email] rejects a second row with the same address. *)
Definition insert_user (db : database) (email hashed_password : string) (now : Z)
    : result (User.t * database) :=
  if bool_decide (email ∈ User.email <$> users db) then Raise IntegrityError
  else
    let u := {| User.id := next_id (User.id <$> users db);
                User.email := email;
                User.created_at := now;
                User.hashed_password := hashed_password;
                User.is_active := true |} in
    Ok (u, {| users := users db ++ [u]; tasks := tasks db |}).

(** [add], [commit], [refresh] of a new task. *)
Definition insert_task (db : database) (row : Z -> Task.t) : Task.t * database :=
  let t := row (next_id (Task.id <$> tasks db)) in
  (t, {| users := users db; tasks := tasks db ++ [t] |}).

(** [commit] of a changed task: the row with its key is replaced. *)
Definition update_task_row (db : database) (t : Task.t) : database :=
  {| users := users db;
     tasks := (fun r => if bool_decide (Task.id r = Task.id t) then t else r) <$> tasks db |}.

Definition task_read (t : Task.t) : TaskRead.t :=
  {| TaskRead.title := Task.title t;
     TaskRead.description := Task.description t;
     TaskRead.completed := Task.completed t;
     TaskRead.user_id := Task.user_id t;
     TaskRead.id := Task.id t;
     TaskRead.created_at := Task.created_at t;
     TaskRead.updated_at := Task.updated_at t |}.

Definition WWW_AUTHENTICATE_BEARER : list (string * string) :=
  [("WWW-Authenticate", "Bearer")].

(** The closing handlers of every route: an [HTTPException] is re-raised,
    any other exception becomes a 500 with the route's message. *)
Definition reraise_or_500 {A : Type} (detail : string) (r : result A) : result A :=
  match r with
  | Ok a => Ok a
  | Raise e =>
      if isinstance_HTTPException e then Raise e
      else Raise (HTTPException HTTP_500_INTERNAL_SERVER_ERROR detail [])
  end.

Section Backend.

(** The keyed hash behind the token signatures and the handler behind the
    password digests. *)
Variable mac : string -> string -> Jose.signing_input -> string.
Variable handler : Passlib.handler.

(** The process-wide [settings] object. *)
Variable settings : Config.Settings.

(** *** [backend/utils.py] *)

Definition update_timestamp (now : Z) : Z := now.

Definition validate_user_ownership (user_id task_user_id : Z) : bool :=
  bool_decide (user_id = task_user_id).

Definition verify_password (plain_password hashed_password : string) : result bool :=
  Passlib.verify handler plain_password hashed_password.

(** [salt] is the salt the hashing context draws for this call. *)
Definition get_password_hash (salt password : string) : result string :=
  Passlib.hash handler salt password.

(** Truth value of [expires_delta]: [None] and [timedelta(0)] are false. *)
Definition timedelta_truthy (expires_delta : option Z) : bool :=
  match expires_delta with
  | Some d => negb (bool_decide (d = 0))
  | None => false
  end.

(** The clock plus the configured minutes. *)
Definition default_expiry (now : Z) : result Z :=
  d ← timedelta (Config.ACCESS_TOKEN_EXPIRE_MINUTES settings);
  datetime_add now d.

(** The value of [expire]: the clock plus [expires_delta] when that is
    true, the clock plus the configured minutes otherwise. *)
Definition expiry_of (now : Z) (expires_delta : option Z) : result Z :=
  match expires_delta with
  | Some d =>
      if timedelta_truthy expires_delta then datetime_add now d
      else default_expiry now
  | None => default_expiry now
  end.

Definition create_access_token (now : Z) (data : gmap string pyval)
    (expires_delta : option Z) : result Jose.token :=
  let to_encode := data in
  expire ← expiry_of now expires_delta;
  let to_encode := <["exp" := PDatetime expire]> to_encode in
  Jose.encode mac to_encode (Config.SECRET_KEY settings) (Config.ALGORITHM settings).

(** The body of the [try] block of [verify_token]. *)
Definition verify_token_try (now : Z) (token : Jose.token) : result (option Z) :=
  payload ← Jose.decode mac now token (Config.SECRET_KEY settings)
              [Config.ALGORITHM settings];
  match payload !! "sub" with
  | None | Some JNull => Ok None
  | Some user_id_str => n ← int_of_json user_id_str; Ok (Some n)
  end.

(** [None] is the invalid result. *)
Definition verify_token (now : Z) (token : Jose.token) : result (option Z) :=
  match verify_token_try now token with
  | Ok r => Ok r
  | Raise e =>
      if isinstance_JWTError e then Ok None
      else if isinstance_ValueError e || isinstance_TypeError e then Ok None
      else Raise e
  end.

(** *** [backend/dependencies.py] *)

(** [OAuth2PasswordBearer]: the bearer credentials of the request, or 401
    when the request carries none. *)
Definition oauth2_scheme (authorization : option Jose.token) : result Jose.token :=
  match authorization with
  | Some token => Ok token
  | None => Raise (HTTPException HTTP_401_UNAUTHORIZED "Not authenticated"
                     WWW_AUTHENTICATE_BEARER)
  end.

Definition get_user_id_from_token (now : Z) (token : Jose.token) : result Z :=
  user_id ← verify_token now token;
  match user_id with
  | None => Raise (HTTPException HTTP_401_UNAUTHORIZED "Invalid or expired token"
                     WWW_AUTHENTICATE_BEARER)
  | Some user_id => Ok user_id
  end.

Definition validate_user_id_match (user_id token_user_id : Z) : result Z :=
  if bool_decide (user_id <> token_user_id)
  then Raise (HTTPException HTTP_403_FORBIDDEN
                "User ID does not match authenticated user" [])
  else Ok user_id.

(** Resolution of [Depends(validate_user_id_match)] for a request with
    the given bearer credentials and path parameter. *)
Definition depends_validate_user_id_match (now : Z)
    (authorization : option Jose.token) (path_user_id : Z) : result Z :=
  token ← oauth2_scheme authorization;
  token_user_id ← get_user_id_from_token now token;
  validate_user_id_match path_user_id token_user_id.

(** *** [backend/routes/auth.py] *)

Definition register_user (salt : string) (now : Z) (user_create : UserCreate.t)
    (db : database) : result UserRead.t * database :=
  let attempt : result (UserRead.t * database) :=
    existing_user ← scalar_one_or_none
                      (select_user_by_email db (UserCreate.email user_create));
    match existing_user with
    | Some _ =>
        Raise (HTTPException HTTP_409_CONFLICT "User with this email already exists" [])
    | None =>
        hashed_password ←
          match get_password_hash salt (UserCreate.password user_create) with
          | Ok h => Ok h
          | Raise _ =>
              Raise (HTTPException HTTP_400_BAD_REQUEST "Invalid password format" [])
          end;
        '(db_user, db') ← insert_user db (UserCreate.email user_create)
                            hashed_password now;
        Ok ({| UserRead.id := User.id db_user;
               UserRead.email := User.email db_user;
               UserRead.created_at := User.created_at db_user;
               UserRead.is_active := User.is_active db_user |}, db')
    end in
  match reraise_or_500 "An unexpected error occurred during registration" attempt with
  | Ok (r, db') => (Ok r, db')
  | Raise e => (Raise e, db)
  end.

Definition login_user (now : Z) (form_data : OAuth2PasswordRequestForm.t)
    (db : database) : result Token.t :=
  reraise_or_500 "An unexpected error occurred during login"
    (user ← scalar_one_or_none
              (select_user_by_email db (OAuth2PasswordRequestForm.username form_data));
     match user with
     | None =>
         Raise (HTTPException HTTP_401_UNAUTHORIZED "Incorrect email or password"
                  WWW_AUTHENTICATE_BEARER)
     | Some user =>
         password_valid ←
           match verify_password (OAuth2PasswordRequestForm.password form_data)
                   (User.hashed_password user) with
           | Ok b => Ok b
           | Raise _ =>
               Raise (HTTPException HTTP_401_UNAUTHORIZED "Authentication error"
                        WWW_AUTHENTICATE_BEARER)
           end;
         if negb password_valid then
           Raise (HTTPException HTTP_401_UNAUTHORIZED "Incorrect email or password"
                    WWW_AUTHENTICATE_BEARER)
         else if negb (User.is_active user) then
           Raise (HTTPException HTTP_401_UNAUTHORIZED "Inactive user"
                    WWW_AUTHENTICATE_BEARER)
         else
           access_token ← create_access_token now
                            {["sub" := PJson (JStr (Py.str (User.id user)))]} None;
           Ok {| Token.access_token := access_token; Token.token_type := "bearer" |}
     end).

(** *** [backend/routes/tasks.py] *)

(** The handler body; [user_id] is the value the dependency returned. *)
Definition list_tasks (user_id : Z) (db : database) : result (list TaskRead.t) :=
  reraise_or_500 "An unexpected error occurred while retrieving tasks"
    (Ok (task_read <$> select_tasks_by_user db user_id)).

(** The [Task] built from the dumped fields of [task_create] and the
    keyword [user_id=user_id]: the two timestamps come from two calls of
    the default factory. *)
Definition new_task (task_create : TaskCreate.t) (user_id : Z)
    (now_created now_updated : Z) (id : Z) : Task.t :=
  {| Task.id := id;
     Task.title := TaskCreate.title task_create;
     Task.description := TaskCreate.description task_create;
     Task.completed := TaskCreate.completed task_create;
     Task.user_id := user_id;
     Task.created_at := now_created;
     Task.updated_at := now_updated |}.

Definition create_task (now_created now_updated : Z) (task_create : TaskCreate.t)
    (user_id : Z) (db : database) : result TaskRead.t * database :=
  let '(db_task, db') :=
    insert_task db (new_task task_create user_id now_created now_updated) in
  (reraise_or_500 "An unexpected error occurred while creating the task"
     (Ok (task_read db_task)), db').

(** The [setattr] loop over the given fields followed by [commit]: the
    columns [title] and [completed] do not accept [NULL]. *)
Definition apply_update (task_update : TaskUpdate.t) (task : Task.t) : result Task.t :=
  title ← match TaskUpdate.title task_update with
          | Unset => Ok (Task.title task)
          | Given (Some v) => Ok v
          | Given None => Raise IntegrityError
          end;
  completed ← match TaskUpdate.completed task_update with
              | Unset => Ok (Task.completed task)
              | Given (Some v) => Ok v
              | Given None => Raise IntegrityError
              end;
  let description := match TaskUpdate.description task_update with
                     | Unset => Task.description task
                     | Given v => v
                     end in
  Ok {| Task.id := Task.id task;
        Task.title := title;
        Task.description := description;
        Task.completed := completed;
        Task.user_id := Task.user_id task;
        Task.created_at := Task.created_at task;
        Task.updated_at := Task.updated_at task |}.

Definition partial_update_task (id : Z) (task_update : TaskUpdate.t) (user_id : Z)
    (db : database) : result TaskRead.t * database :=
  let attempt : result (TaskRead.t * database) :=
    task ← scalar_one_or_none (select_task db id user_id);
    match task with
    | None => Raise (HTTPException HTTP_404_NOT_FOUND "Task not found" [])
    | Some task =>
        task' ← apply_update task_update task;
        Ok (task_read task', update_task_row db task')
    end in
  match reraise_or_500 "An unexpected error occurred while partially updating the task"
          attempt with
  | Ok (r, db') => (Ok r, db')
  | Raise e => (Raise e, db)
  end.

(** The three endpoints as a client reaches them: dependency resolution,
    then the handler. *)
Definition GET_tasks (now : Z) (authorization : option Jose.token) (path_user_id : Z)
    (db : database) : result (list TaskRead.t) :=
  user_id ← depends_validate_user_id_match now authorization path_user_id;
  list_tasks user_id db.

Definition POST_tasks (now now_created now_updated : Z)
    (authorization : option Jose.token) (path_user_id : Z)
    (task_create : TaskCreate.t) (db : database) : result TaskRead.t * database :=
  match depends_validate_user_id_match now authorization path_user_id with
  | Ok user_id => create_task now_created now_updated task_create user_id db
  | Raise e => (Raise e, db)
  end.

Definition PATCH_task (now : Z) (authorization : option Jose.token)
    (path_user_id id : Z) (task_update : TaskUpdate.t) (db : database)
    : result TaskRead.t * database :=
  match depends_validate_user_id_match now authorization path_user_id with
  | Ok user_id => partial_update_task id task_update user_id db
  | Raise e => (Raise e, db)
  end.

End Backend.

(** ** Sample instances

    A keyed hash, a key derivation function and a configuration on which
    the model runs on concrete requests. *)
Module Sample.

Definition mac (alg key : string) (input : Jose.signing_input) : string :=
  alg +:+ ":" +:+ key.

Fixpoint squash (n : nat) (s : string) : string :=
  match n with
  | O => EmptyString
  | S n' =>
      match s with
      | EmptyString => String "." (squash n' EmptyString)
      | String c s' => String c (squash n' s')
      end
  end.

Lemma squash_length (n : nat) (s : string) : String.length (squash n s) = n.
Proof.
  revert s. induction n as [| n IH]; intros s; [reflexivity |].
  destruct s as [| c s]; cbn [squash String.length]; now rewrite IH.
Qed.

(** A key of the right size that depends on the secret only. *)
Definition kdf (secret salt : string) (rounds : Z) : Pbkdf2.derived_key :=
  {| Pbkdf2.key_bytes := squash Pbkdf2.checksum_size secret;
     Pbkdf2.key_length := squash_length Pbkdf2.checksum_size secret |}.

(** The handler of the examples: the scheme's handler around the key
    derivation above. *)
Definition handler : Passlib.handler := Pbkdf2.handler kdf.

(** The settings of a process started with an empty environment. *)
Definition settings : Config.Settings :=
  {| Config.DATABASE_URL := "sqlite+aiosqlite:///./todo_app.db";
     Config.SECRET_KEY := Config.BUILTIN_SECRET;
     Config.ALGORITHM := "HS256";
     Config.ACCESS_TOKEN_EXPIRE_MINUTES := 30;
     Config.API_V1_STR := "/api/v1";
     Config.PROJECT_NAME := "Todo App Backend API";
     Config.MOCK_USER_ID := 1 |}.

(** The 16 bytes of a drawn salt. *)
Definition salt : string := "saltsaltsaltsalt".

Definition alice : User.t :=
  {| User.id := 1;
     User.email := "alice@example.com";
     User.created_at := 1000;
     User.hashed_password :=
       Pbkdf2.to_string Passlib.default_rounds salt
         (Passlib.pbkdf2 handler "secret123" salt Passlib.default_rounds);
     User.is_active := true |}.

Definition buy_milk : Task.t :=
  {| Task.id := 1;
     Task.title := "buy milk";
     Task.description := None;
     Task.completed := false;
     Task.user_id := 1;
     Task.created_at := 5000000;
     Task.updated_at := 5000000 |}.

Definition walk_dog : Task.t :=
  {| Task.id := 2;
     Task.title := "walk the dog";
     Task.description := Some "before noon";
     Task.completed := false;
     Task.user_id := 2;
     Task.created_at := 6000000;
     Task.updated_at := 6000003 |}.

Definition db : database :=
  {| users := [alice]; tasks := [buy_milk; walk_dog] |}.

(** The handler parses what it prints, for every salt the scheme allows. *)
Lemma handler_parses_own_digest (secret salt : string) :
  (String.length salt <= Pbkdf2.max_salt_size)%nat ->
  let chk := Passlib.pbkdf2 handler secret salt Passlib.default_rounds in
  let digest := Passlib.to_string handler Passlib.default_rounds salt chk in
  Passlib.identify digest = true /\
  Passlib.from_string handler digest = Ok (Passlib.default_rounds, salt, Some chk).
Proof.
  intros Hsalt chk digest. split.
  - apply Pbkdf2.identify_to_string.
  - apply Pbkdf2.from_string_to_string; [assumption |].
    apply Pbkdf2.key_length.
Qed.

End Sample.

(** * Properties *)

(** ** Identity enforcement *)

Lemma validate_user_id_match_ne (user_id token_user_id : Z) :
  user_id <> token_user_id ->
  validate_user_id_match user_id token_user_id
  = Raise (HTTPException HTTP_403_FORBIDDEN
             "User ID does not match authenticated user" []).
Proof. intros H. unfold validate_user_id_match. now rewrite bool_decide_eq_true_2. Qed.

Lemma validate_user_id_match_eq (user_id : Z) :
  validate_user_id_match user_id user_id = Ok user_id.
Proof.
  unfold validate_user_id_match. rewrite bool_decide_eq_false_2; [reflexivity |].
  intros H. now apply H.
Qed.

Lemma validate_user_id_match_Ok (user_id token_user_id r : Z) :
  validate_user_id_match user_id token_user_id = Ok r ->
  user_id = token_user_id /\ r = user_id.
Proof.
  unfold validate_user_id_match. case_bool_decide as H; [discriminate |].
  intros [= <-]. split; [| reflexivity].
  destruct (decide (user_id = token_user_id)); [assumption | contradiction].
Qed.

Section Identity.

Variable mac : string -> string -> Jose.signing_input -> string.
Variable settings : Config.Settings.

(** What a successful resolution of the path dependency means. *)
Lemma depends_validate_user_id_match_Ok (now : Z) (authorization : option Jose.token)
    (path_user_id user_id : Z) :
  depends_validate_user_id_match mac settings now authorization path_user_id = Ok user_id ->
  user_id = path_user_id /\
  exists token, authorization = Some token /\
                verify_token mac settings now token = Ok (Some path_user_id).
Proof.
  unfold depends_validate_user_id_match, get_user_id_from_token.
  destruct authorization as [token |]; [| discriminate]. cbn.
  destruct (verify_token mac settings now token) as [[uid |] | e] eqn:Hv;
    cbn; try discriminate.
  intros H. apply validate_user_id_match_Ok in H as [Hp Hr]. subst uid user_id.
  split; [reflexivity |]. now exists token.
Qed.

Lemma select_tasks_by_user_owner (db : database) (user_id : Z) (t : Task.t) :
  t ∈ select_tasks_by_user db user_id -> Task.user_id t = user_id /\ t ∈ tasks db.
Proof.
  unfold select_tasks_by_user. intros H.
  apply list_elem_of_filter in H. tauto.
Qed.

End Identity.

Definition forbidden : exn :=
  HTTPException HTTP_403_FORBIDDEN "User ID does not match authenticated user" [].

(** C1. For every path user id [B] and token user id [A], the
    identity-enforcement step signals Forbidden (403) when the two differ
    and returns the path user id unchanged when they are equal.
    Consequently a request for the task list of path user [B] that carries
    a valid token for user [A] is answered with Forbidden when [A <> B],
    so no task of [B] is returned; it is answered with the stored tasks of
    [A] when [B = A]; and every task in any successful answer is owned by
    [A]. *)
Theorem identity_enforcement
    (mac : string -> string -> Jose.signing_input -> string)
    (settings : Config.Settings) (now : Z) (token : Jose.token)
    (A B : Z) (db : database) :
  (B <> A -> validate_user_id_match B A = Raise forbidden) /\
  (B = A -> validate_user_id_match B A = Ok B) /\
  (verify_token mac settings now token = Ok (Some A) ->
   (B <> A -> GET_tasks mac settings now (Some token) B db = Raise forbidden) /\
   (B = A ->
      GET_tasks mac settings now (Some token) B db
      = Ok (task_read <$> select_tasks_by_user db B)) /\
   (forall (l : list TaskRead.t) (r : TaskRead.t),
      GET_tasks mac settings now (Some token) B db = Ok l ->
      r ∈ l -> B = A /\ TaskRead.user_id r = A)).
Proof.
  split; [apply validate_user_id_match_ne |].
  split; [intros ->; apply validate_user_id_match_eq |].
  intros Hv.
  assert (GET_tasks mac settings now (Some token) B db
          = (user_id ← validate_user_id_match B A; list_tasks user_id db)) as Hget.
  { unfold GET_tasks, depends_validate_user_id_match, get_user_id_from_token.
    cbn. rewrite Hv. reflexivity. }
  split; [| split].
  - intros Hne. now rewrite Hget, (validate_user_id_match_ne B A Hne).
  - intros ->. now rewrite Hget, validate_user_id_match_eq.
  - intros l r. rewrite Hget.
    destruct (validate_user_id_match B A) as [u |] eqn:Hm; [| discriminate].
    apply validate_user_id_match_Ok in Hm as [-> ->]. cbn.
    intros [= <-] Hr. split; [reflexivity |].
    apply list_elem_of_fmap in Hr as (t & -> & Ht).
    now apply select_tasks_by_user_owner in Ht as [Ht _].
Qed.

Definition token_of (r : result Jose.token) : Jose.token :=
  match r with
  | Ok t => t
  | Raise _ => Jose.Malformed ""
  end.

(** The token that a login of user 1 at time 0 returns under the sample
    configuration. *)
Definition sample_token : Jose.token :=
  token_of (create_access_token Sample.mac Sample.settings 0
              {["sub" := PJson (JStr (Py.str 1))]} None).

Lemma identity_enforcement_witness :
  validate_user_id_match 2 1 = Raise forbidden /\
  GET_tasks Sample.mac Sample.settings 1000000 (Some sample_token) 2 Sample.db
  = Raise forbidden.
Proof.
  split.
  - apply (identity_enforcement Sample.mac Sample.settings 1000000 sample_token 1 2 Sample.db).
    lia.
  - apply (identity_enforcement Sample.mac Sample.settings 1000000 sample_token 1 2 Sample.db).
    + vm_compute. reflexivity.
    + lia.
Defined.

(** ** Tokens: issue and verify *)








Lemma datetime_add_raises (t d : Z) (e : exn) :
  datetime_add t d = Raise e -> e = OverflowError.
Proof. unfold datetime_add. destruct (_ && _); congruence. Qed.

Lemma timedelta_raises (m : Z) (e : exn) : timedelta m = Raise e -> e = OverflowError.
Proof. unfold timedelta. destruct (_ && _); congruence. Qed.

Section Tokens.

Variable mac : string -> string -> Jose.signing_input -> string.
Variable settings : Config.Settings.







Lemma expiry_of_raises (issued : Z) (expires_delta : option Z) (e : exn) :
  expiry_of settings issued expires_delta = Raise e -> e = OverflowError.
Proof.
  assert (forall e, default_expiry settings issued = Raise e -> e = OverflowError) as Hd.
  { intros e'. unfold default_expiry.
    destruct (timedelta _) as [d |] eqn:Ht; cbn.
    - apply datetime_add_raises.
    - intros [= <-]. now apply timedelta_raises in Ht. }
  unfold expiry_of. destruct expires_delta as [d |]; [| apply Hd].
  destruct (timedelta_truthy (Some d)); [apply datetime_add_raises | apply Hd].
Qed.



End Tokens.



(** A zero [timedelta] is false: the token gets the configured default
    lifetime instead of expiring at once. *)
Example zero_timedelta_uses_default (settings : Config.Settings) (now : Z) :
  expiry_of settings now (Some 0) = default_expiry settings now.
Proof. reflexivity. Qed.





(** ** Tokens: what verification accepts *)

Lemma bind_Ok_inv {A B : Type} (r : result A) (k : A -> result B) (b : B) :
  (r ≫= k) = Ok b -> exists a, r = Ok a /\ k a = Ok b.
Proof. destruct r as [a | e]; cbn; [eauto | discriminate]. Qed.

Lemma int_Ok_inv (s : string) (n : Z) : Py.int s = Ok n -> Py.int_of_str s = Some n.
Proof. unfold Py.int. destruct (Py.int_of_str s); congruence. Qed.





















Section Verification.

Variable mac : string -> string -> Jose.signing_input -> string.
Variable settings : Config.Settings.

Local Abbreviation ALG := (Config.ALGORITHM settings).
Local Abbreviation KEY := (Config.SECRET_KEY settings).











End Verification.





Definition returns_user_id (r : result (option Z)) : bool :=
  match r with
  | Ok (Some _) => true
  | _ => false
  end.

(** The token that the server's key signs over [claims]. *)
Definition signed (claims : gmap string json) : Jose.token :=
  token_of (Jose.encode Sample.mac (PJson <$> claims)
              (Config.SECRET_KEY Sample.settings) (Config.ALGORITHM Sample.settings)).



(** A signed token with a subject and nothing else. *)
Definition token_without_exp : Jose.token := signed {["sub" := JStr "1"]}.




(** A token whose header segment is the base64url text of 2001 opening
    brackets. *)
Definition deep_header_token : Jose.token :=
  Jose.DeepHeader (Py.repeat_string 667 "W1tb" +:+ ".e30.c2ln").

(** A token signed by the server whose expiry is the float [Infinity]. *)
Definition token_with_infinite_exp : Jose.token :=
  signed {["sub" := JStr "1"; "exp" := JFloat (Infinity false)]}.

(** C4 as stated fails on some malformed tokens: when the header segment
    holds JSON nested beyond the recursion limit, [verify_token] raises
    [RecursionError] instead of returning the invalid result; and on a
    signed token whose expiry is an infinite float it raises
    [OverflowError]. *)
Lemma verify_token_raises_on_deep_header :
  verify_token Sample.mac Sample.settings 0 deep_header_token = Raise RecursionError /\
  verify_token Sample.mac Sample.settings 0 token_with_infinite_exp = Raise OverflowError.
Proof. split; vm_compute; reflexivity. Qed.



(** ** Passwords *)

Definition authentication_error : exn :=
  HTTPException HTTP_401_UNAUTHORIZED "Authentication error" WWW_AUTHENTICATE_BEARER.

Lemma validate_secret_Ok (secret : string) :
  (String.length secret <= Passlib.MAX_PASSWORD_SIZE)%nat ->
  Passlib.validate_secret secret = Ok tt.
Proof.
  intros H. unfold Passlib.validate_secret.
  destruct (Nat.ltb_spec Passlib.MAX_PASSWORD_SIZE (String.length secret)); [lia | reflexivity].
Qed.

Lemma validate_secret_Ok_inv (secret : string) :
  Passlib.validate_secret secret = Ok tt ->
  (String.length secret <= Passlib.MAX_PASSWORD_SIZE)%nat.
Proof.
  unfold Passlib.validate_secret.
  destruct (Nat.ltb_spec Passlib.MAX_PASSWORD_SIZE (String.length secret));
    [discriminate | lia].
Qed.

Section Passwords.

Variable H : Passlib.handler.

Lemma get_password_hash_Ok (salt password : string) :
  (String.length password <= Passlib.MAX_PASSWORD_SIZE)%nat ->
  get_password_hash H salt password
  = Ok (Passlib.to_string H Passlib.default_rounds salt
          (Passlib.pbkdf2 H password salt Passlib.default_rounds)).
Proof.
  intros Hlen. unfold get_password_hash, Passlib.hash.
  now rewrite (validate_secret_Ok password Hlen).
Qed.

Lemma get_password_hash_raises (salt password : string) :
  (Passlib.MAX_PASSWORD_SIZE < String.length password)%nat ->
  get_password_hash H salt password = Raise PasswordSizeError.
Proof.
  intros Hlen. unfold get_password_hash, Passlib.hash, Passlib.validate_secret.
  destruct (Nat.ltb_spec Passlib.MAX_PASSWORD_SIZE (String.length password));
    [reflexivity | lia].
Qed.

(** On a digest that the handler parses, verification compares the
    checksum derived from the plaintext with the digest's checksum. *)
Lemma verify_password_parsed (plain hashed : string) (rounds : Z) (salt chk : string) :
  Passlib.identify hashed = true ->
  (String.length plain <= Passlib.MAX_PASSWORD_SIZE)%nat ->
  Passlib.from_string H hashed = Ok (rounds, salt, Some chk) ->
  verify_password H plain hashed
  = Ok (bool_decide (Passlib.pbkdf2 H plain salt rounds = chk)).
Proof.
  intros Hid Hlen Hparse. unfold verify_password, Passlib.verify.
  now rewrite Hid, (validate_secret_Ok plain Hlen), Hparse.
Qed.

Lemma verify_password_true (plain hashed : string) :
  verify_password H plain hashed = Ok true ->
  Passlib.identify hashed = true /\
  (String.length plain <= Passlib.MAX_PASSWORD_SIZE)%nat /\
  exists rounds salt,
    Passlib.from_string H hashed
    = Ok (rounds, salt, Some (Passlib.pbkdf2 H plain salt rounds)).
Proof.
  unfold verify_password, Passlib.verify.
  destruct (Passlib.identify hashed); cbn [negb];
    [| destruct (bool_decide (hashed = "")); discriminate].
  destruct (Passlib.validate_secret plain) as [[] |] eqn:Hlen; [| discriminate].
  cbn. destruct (Passlib.from_string H hashed) as [[[rounds salt] [chk |]] |];
    cbn; try discriminate.
  intros [= Hchk]. apply bool_decide_eq_true_1 in Hchk as <-.
  split; [reflexivity |]. split; [now apply validate_secret_Ok_inv |].
  now exists rounds, salt.
Qed.

Lemma verify_password_unidentified (plain hashed : string) :
  Passlib.identify hashed = false ->
  verify_password H plain hashed
  = Raise (if bool_decide (hashed = "") then ValueError else UnknownHashError).
Proof.
  intros Hid. unfold verify_password, Passlib.verify. rewrite Hid. cbn [negb].
  now destruct (bool_decide (hashed = "")).
Qed.

(** An exception of [verify_password] is answered by [login_user] with
    401 "Authentication error". *)
Lemma login_user_verify_raises
    (mac : string -> string -> Jose.signing_input -> string)
    (settings : Config.Settings) (now : Z) (form : OAuth2PasswordRequestForm.t)
    (db : database) (user : User.t) (e : exn) :
  select_user_by_email db (OAuth2PasswordRequestForm.username form) = [user] ->
  verify_password H (OAuth2PasswordRequestForm.password form)
    (User.hashed_password user) = Raise e ->
  login_user mac H settings now form db = Raise authentication_error.
Proof.
  intros Hsel Hpw. unfold login_user. rewrite Hsel. cbn. now rewrite Hpw.
Qed.

End Passwords.

(** The scheme's handler parses the digest it prints for a password. *)
Lemma own_digest_parses (kdf : string -> string -> Z -> Pbkdf2.derived_key)
    (secret salt : string) :
  (String.length salt <= Pbkdf2.max_salt_size)%nat ->
  let H := Pbkdf2.handler kdf in
  let chk := Passlib.pbkdf2 H secret salt Passlib.default_rounds in
  let digest := Passlib.to_string H Passlib.default_rounds salt chk in
  Passlib.identify digest = true /\
  Passlib.from_string H digest = Ok (Passlib.default_rounds, salt, Some chk).
Proof.
  intros Hsalt H chk digest. split.
  - apply Pbkdf2.identify_to_string.
  - apply Pbkdf2.from_string_to_string; [assumption | apply Pbkdf2.key_length].
Qed.

(** A stored user whose digest lacks the checksum. *)
Definition truncated_alice : User.t :=
  {| User.id := User.id Sample.alice;
     User.email := User.email Sample.alice;
     User.created_at := User.created_at Sample.alice;
     User.hashed_password := "$pbkdf2-sha256$29000$c2FsdA";
     User.is_active := true |}.

(** C5 as stated fails on a malformed digest: the call raises instead of
    returning false, when no scheme is identified, when the digest is
    empty, when the scheme's fields are incomplete, and when the salt is
    no base64 text. *)
Lemma verify_password_raises_on_malformed :
  verify_password Sample.handler "secret123" "not-a-hash" = Raise UnknownHashError /\
  verify_password Sample.handler "secret123" "" = Raise ValueError /\
  verify_password Sample.handler "secret123" "$pbkdf2-sha256$29000$c2FsdA"
  = Raise MissingDigestError /\
  verify_password Sample.handler "secret123"
    "$pbkdf2-sha256$29000$c2Fsd$YWJjZGVmZ2hpamtsbW5vcHFyc3R1dnd4eXowMTIzNDU"
  = Raise ValueError.
Proof. repeat split; reflexivity. Qed.

(** C5, as the code has it. [verify_password] returns true if and only if
    the digest carries the scheme's prefix, the plaintext is within the
    library's size limit, and the handler parses the digest into rounds, a
    salt and the checksum derived from that plaintext with that salt and
    those rounds. On a parsed digest with another checksum it returns
    false. On a digest that is not well formed it raises to its caller:
    [ValueError] on the empty digest, [UnknownHashError] on any other
    without the scheme's prefix, the handler's exception when the fields
    do not parse; and [login_user] answers every exception of the call
    with 401 "Authentication error". With the scheme's own parser and
    printer, whatever the key derivation function: [get_password_hash]
    succeeds on a plaintext within the size limit, with any salt the
    scheme allows; [verify_password] returns true on that digest for that
    plaintext, and for another plaintext it returns true exactly when the
    two derived keys are the same. *)
Theorem verify_password_spec (H : Passlib.handler)
    (kdf : string -> string -> Z -> Pbkdf2.derived_key) (plain hashed : string) :
  (verify_password H plain hashed = Ok true <->
   Passlib.identify hashed = true /\
   (String.length plain <= Passlib.MAX_PASSWORD_SIZE)%nat /\
   exists rounds salt,
     Passlib.from_string H hashed
     = Ok (rounds, salt, Some (Passlib.pbkdf2 H plain salt rounds))) /\
  (forall rounds salt chk,
     Passlib.identify hashed = true ->
     (String.length plain <= Passlib.MAX_PASSWORD_SIZE)%nat ->
     Passlib.from_string H hashed = Ok (rounds, salt, Some chk) ->
     Passlib.pbkdf2 H plain salt rounds <> chk ->
     verify_password H plain hashed = Ok false) /\
  (Passlib.identify hashed = false ->
     verify_password H plain hashed
     = Raise (if bool_decide (hashed = "") then ValueError else UnknownHashError)) /\
  (forall e,
     Passlib.identify hashed = true ->
     (String.length plain <= Passlib.MAX_PASSWORD_SIZE)%nat ->
     Passlib.from_string H hashed = Raise e ->
     verify_password H plain hashed = Raise e) /\
  (forall mac settings now form db user e,
     select_user_by_email db (OAuth2PasswordRequestForm.username form) = [user] ->
     verify_password H (OAuth2PasswordRequestForm.password form)
       (User.hashed_password user) = Raise e ->
     login_user mac H settings now form db = Raise authentication_error) /\
  (forall salt,
     (String.length plain <= Passlib.MAX_PASSWORD_SIZE)%nat ->
     (String.length salt <= Pbkdf2.max_salt_size)%nat ->
     exists digest,
       get_password_hash (Pbkdf2.handler kdf) salt plain = Ok digest /\
       verify_password (Pbkdf2.handler kdf) plain digest = Ok true /\
       forall other,
         (String.length other <= Passlib.MAX_PASSWORD_SIZE)%nat ->
         verify_password (Pbkdf2.handler kdf) other digest
         = Ok (bool_decide
                 (Pbkdf2.key_bytes (kdf other salt Passlib.default_rounds)
                  = Pbkdf2.key_bytes (kdf plain salt Passlib.default_rounds)))).
Proof.
  split; [| split; [| split; [| split; [| split]]]].
  - split; [apply verify_password_true |].
    intros (Hid & Hlen & rounds & salt & Hparse).
    rewrite (verify_password_parsed H _ _ _ _ _ Hid Hlen Hparse).
    now rewrite bool_decide_eq_true_2.
  - intros rounds salt chk Hid Hlen Hparse Hne.
    rewrite (verify_password_parsed H _ _ _ _ _ Hid Hlen Hparse).
    now rewrite bool_decide_eq_false_2.
  - apply verify_password_unidentified.
  - intros e Hid Hlen Hparse. unfold verify_password, Passlib.verify.
    now rewrite Hid, (validate_secret_Ok plain Hlen), Hparse.
  - intros mac settings now form db user e.
    apply login_user_verify_raises.
  - intros salt Hlen Hsalt.
    destruct (own_digest_parses kdf plain salt Hsalt) as [Hid Hparse].
    eexists. split; [now apply get_password_hash_Ok |]. split.
    + rewrite (verify_password_parsed _ _ _ _ _ _ Hid Hlen Hparse).
      now rewrite bool_decide_eq_true_2.
    + intros other Hother.
      now rewrite (verify_password_parsed _ _ _ _ _ _ Hid Hother Hparse).
Qed.

Lemma verify_password_spec_witness :
  (exists digest,
     get_password_hash Sample.handler Sample.salt "secret123" = Ok digest /\
     verify_password Sample.handler "secret123" digest = Ok true /\
     verify_password Sample.handler "hunter2" digest = Ok false) /\
  login_user Sample.mac Sample.handler Sample.settings 0
    {| OAuth2PasswordRequestForm.username := "alice@example.com";
       OAuth2PasswordRequestForm.password := "secret123" |}
    {| users := [truncated_alice]; tasks := [] |}
  = Raise authentication_error.
Proof.
  pose proof (verify_password_spec Sample.handler Sample.kdf "secret123" "not-a-hash")
    as (_ & _ & _ & _ & Hlogin & Hown).
  split.
  - destruct (Hown Sample.salt) as (digest & Hhash & Htrue & Hother);
      [vm_compute; lia | vm_compute; lia |].
    exists digest. split; [exact Hhash |]. split; [exact Htrue |].
    unfold Sample.handler. rewrite (Hother "hunter2") by (vm_compute; lia).
    reflexivity.
  - apply (Hlogin Sample.mac Sample.settings 0 _ _ truncated_alice MissingDigestError);
      reflexivity.
Defined.

(** ** Login and registration *)

Definition incorrect_credentials : exn :=
  HTTPException HTTP_401_UNAUTHORIZED "Incorrect email or password"
    WWW_AUTHENTICATE_BEARER.

Definition conflict : exn :=
  HTTPException HTTP_409_CONFLICT "User with this email already exists" [].

Definition invalid_password : exn :=
  HTTPException HTTP_400_BAD_REQUEST "Invalid password format" [].

(** C7. A login for which no user row matches the submitted email and a
    login for which the user exists but password verification returns
    false fail with the same response: 401 Unauthorized with the same
    message and the same headers. *)
Theorem login_failures_indistinguishable
    (mac : string -> string -> Jose.signing_input -> string)
    (handler : Passlib.handler)
    (settings : Config.Settings)
    (now now' : Z) (form form' : OAuth2PasswordRequestForm.t)
    (db db' : database) (user : User.t) :
  select_user_by_email db (OAuth2PasswordRequestForm.username form) = [] ->
  select_user_by_email db' (OAuth2PasswordRequestForm.username form') = [user] ->
  verify_password handler (OAuth2PasswordRequestForm.password form')
    (User.hashed_password user) = Ok false ->
  login_user mac handler settings now form db = Raise incorrect_credentials /\
  login_user mac handler settings now' form' db' = Raise incorrect_credentials /\
  login_user mac handler settings now form db
  = login_user mac handler settings now' form' db'.
Proof.
  intros Hnone Hone Hfalse.
  assert (login_user mac handler settings now form db = Raise incorrect_credentials) as H1.
  { unfold login_user. now rewrite Hnone. }
  assert (login_user mac handler settings now' form' db' = Raise incorrect_credentials) as H2.
  { unfold login_user. rewrite Hone. cbn. now rewrite Hfalse. }
  repeat split; congruence.
Qed.

Lemma login_failures_indistinguishable_witness :
  let unknown := {| OAuth2PasswordRequestForm.username := "bob@example.com";
                    OAuth2PasswordRequestForm.password := "secret123" |} in
  let wrong := {| OAuth2PasswordRequestForm.username := "alice@example.com";
                  OAuth2PasswordRequestForm.password := "hunter2" |} in
  login_user Sample.mac Sample.handler Sample.settings 0 unknown Sample.db
  = login_user Sample.mac Sample.handler Sample.settings 0 wrong Sample.db.
Proof.
  apply (login_failures_indistinguishable Sample.mac Sample.handler Sample.settings
           0 0 _ _ Sample.db Sample.db Sample.alice); reflexivity.
Defined.

(** A login with the right password returns a bearer token that verifies
    to the user's id. *)
Example login_then_verify :
  let form := {| OAuth2PasswordRequestForm.username := "alice@example.com";
                 OAuth2PasswordRequestForm.password := "secret123" |} in
  exists token,
    login_user Sample.mac Sample.handler Sample.settings 0 form Sample.db
    = Ok {| Token.access_token := token; Token.token_type := "bearer" |} /\
    verify_token Sample.mac Sample.settings 1799999999 token = Ok (Some 1) /\
    verify_token Sample.mac Sample.settings 1801000000 token = Ok None.
Proof. eexists. split; [vm_compute; reflexivity |]. split; vm_compute; reflexivity. Qed.

Lemma select_user_by_email_nil (db : database) (email : string) :
  select_user_by_email db email = [] -> email ∉ User.email <$> users db.
Proof.
  unfold select_user_by_email. intros Hnil Hin.
  apply list_elem_of_fmap in Hin as (u & -> & Hu).
  assert (u ∈ filter (fun u' => User.email u' = User.email u) (users db)) as Hf
    by (apply list_elem_of_filter; now split).
  rewrite Hnil in Hf. now apply elem_of_nil in Hf.
Qed.

Lemma select_user_by_email_app (db : database) (u : User.t) (email : string) :
  select_user_by_email db email = [] ->
  User.email u = email ->
  select_user_by_email {| users := users db ++ [u]; tasks := tasks db |} email = [u].
Proof.
  unfold select_user_by_email. cbn [users]. intros Hnil Hu.
  rewrite filter_app, Hnil, filter_cons, decide_True by assumption.
  reflexivity.
Qed.

(** C8. When no user has the email, registration succeeds when hashing
    succeeds: it appends exactly one user row, carrying that email, and any
    later registration with the same email signals Conflict (409) and
    leaves the table as it is. When a user with the email exists,
    registration signals Conflict at the uniqueness check and creates no
    row. When hashing fails, registration signals 400 and creates no row. *)
Theorem register_user_spec
    (handler : Passlib.handler)
    (salt : string) (now : Z) (user_create : UserCreate.t) (db : database) :
  (select_user_by_email db (UserCreate.email user_create) = [] ->
   (String.length (UserCreate.password user_create) <= Passlib.MAX_PASSWORD_SIZE)%nat ->
   exists (r : UserRead.t) (u : User.t),
     let db' := {| users := users db ++ [u]; tasks := tasks db |} in
     register_user handler salt now user_create db = (Ok r, db') /\
     length (users db') = S (length (users db)) /\
     User.email u = UserCreate.email user_create /\
     UserRead.email r = UserCreate.email user_create /\
     UserRead.id r = User.id u /\
     forall salt' now' again,
       UserCreate.email again = UserCreate.email user_create ->
       register_user handler salt' now' again db' = (Raise conflict, db')) /\
  (forall existing,
     select_user_by_email db (UserCreate.email user_create) = [existing] ->
     register_user handler salt now user_create db = (Raise conflict, db)) /\
  (forall e,
     select_user_by_email db (UserCreate.email user_create) = [] ->
     get_password_hash handler salt (UserCreate.password user_create) = Raise e ->
     register_user handler salt now user_create db = (Raise invalid_password, db)).
Proof.
  split; [| split].
  - intros Hnil Hlen. unfold register_user at 1. rewrite Hnil. cbn.
    rewrite (get_password_hash_Ok handler salt _ Hlen). cbn.
    unfold insert_user.
    rewrite bool_decide_eq_false_2 by now apply select_user_by_email_nil.
    cbn. eexists _, _. split; [reflexivity |].
    split; [rewrite length_app; cbn; lia |].
    repeat split.
    intros salt' now' again Heq. unfold register_user.
    rewrite Heq.
    erewrite select_user_by_email_app; [reflexivity | exact Hnil | reflexivity].
  - intros existing Hone. unfold register_user. now rewrite Hone.
  - intros e Hnil Hraise. unfold register_user. rewrite Hnil. cbn.
    now rewrite Hraise.
Qed.

Lemma register_user_spec_witness :
  let first := {| UserCreate.email := "bob@example.com";
                  UserCreate.password := "hunter2" |} in
  exists (r : UserRead.t) (u : User.t),
    let db' := {| users := users Sample.db ++ [u]; tasks := tasks Sample.db |} in
    register_user Sample.handler Sample.salt 2000 first Sample.db = (Ok r, db') /\
    length (users db') = S (length (users Sample.db)) /\
    User.email u = UserCreate.email first /\
    UserRead.email r = UserCreate.email first /\
    UserRead.id r = User.id u /\
    forall salt' now' again,
      UserCreate.email again = UserCreate.email first ->
      register_user Sample.handler salt' now' again db' = (Raise conflict, db').
Proof.
  apply (register_user_spec Sample.handler Sample.salt 2000
           {| UserCreate.email := "bob@example.com"; UserCreate.password := "hunter2" |}
           Sample.db).
  - reflexivity.
  - vm_compute. lia.
Defined.

(** Hashing does fail on some requests: a password longer than the
    library's limit is answered with 400 and no row is written. *)
Example register_user_long_password :
  register_user Sample.handler Sample.salt 2000
    {| UserCreate.email := "bob@example.com";
       UserCreate.password := Sample.squash 4097 "" |} Sample.db
  = (Raise invalid_password, Sample.db).
Proof. vm_compute. reflexivity. Qed.

(** ** Tasks *)

(** The request body [{"completed": true}]. *)
Definition patch_completed : TaskUpdate.t :=
  {| TaskUpdate.title := Unset;
     TaskUpdate.description := Unset;
     TaskUpdate.completed := Given (Some true) |}.

(** A partial update that only sets [completed] changes nothing else in
    the row: title, description, owner and both timestamps keep their
    stored values. *)
Lemma partial_update_completed_frame (id user_id : Z) (db : database) (task : Task.t) :
  select_task db id user_id = [task] ->
  exists (r : TaskRead.t) (db' : database),
    partial_update_task id patch_completed user_id db = (Ok r, db') /\
    TaskRead.completed r = true /\
    TaskRead.title r = Task.title task /\
    TaskRead.description r = Task.description task /\
    TaskRead.user_id r = Task.user_id task /\
    TaskRead.created_at r = Task.created_at task /\
    TaskRead.updated_at r = Task.updated_at task.
Proof.
  intros Hsel. unfold partial_update_task. rewrite Hsel. cbn.
  eexists _, _. split; [reflexivity |]. cbn. repeat split.
Qed.

(** C6. On the stored task [Sample.buy_milk], created with both timestamps
    equal, the request [PATCH /1/tasks/1 {"completed": true}] by its owner
    leaves title and description unchanged and sets [completed], but the
    answer's [updated_at] is still the stored one: it equals [created_at]
    and is not later than it. *)
Theorem patch_completed_updated_at_stale :
  exists (r : TaskRead.t) (db' : database),
    PATCH_task Sample.mac Sample.settings 9000000 (Some sample_token) 1 1
      patch_completed Sample.db = (Ok r, db') /\
    TaskRead.completed r = true /\
    TaskRead.title r = Task.title Sample.buy_milk /\
    TaskRead.description r = Task.description Sample.buy_milk /\
    TaskRead.updated_at r = Task.updated_at Sample.buy_milk /\
    TaskRead.updated_at r = TaskRead.created_at r /\
    ~ (TaskRead.created_at r < TaskRead.updated_at r).
Proof.
  assert (depends_validate_user_id_match Sample.mac Sample.settings 9000000
            (Some sample_token) 1 = Ok 1) as Hdep by (vm_compute; reflexivity).
  destruct (partial_update_completed_frame 1 1 Sample.db Sample.buy_milk eq_refl)
    as (r & db' & Hpatch & Hc & Ht & Hd & _ & Hcr & Hup).
  exists r, db'. unfold PATCH_task. rewrite Hdep, Hpatch.
  repeat split; try assumption.
  - rewrite Hup, Hcr. reflexivity.
  - rewrite Hup, Hcr. cbn. lia.
Qed.

(** ** Configuration *)

(** C9 as stated fails: with neither [SECRET_KEY] nor [AUTH_SECRET] in the
    environment the configuration is constructed, and its secret is the
    one written in the source; and with an empty [SECRET_KEY] it is
    constructed with the empty secret. *)
Lemma load_settings_empty_environment :
  Config.load_settings ∅ = Ok Sample.settings /\
  Config.SECRET_KEY Sample.settings = "KPUqFcCE/cmK7jg73LieWXczeHwnHlb4Hde1EcVrbCo=" /\
  exists s, Config.load_settings {["SECRET_KEY" := ""]} = Ok s /\
            Config.SECRET_KEY s = "".
Proof.
  split; [reflexivity |]. split; [reflexivity |].
  eexists. split; reflexivity.
Qed.

(** C9, as the code has it. Whatever the environment holds for
    [SECRET_KEY], constructing the configuration succeeds when the expiry
    minutes are absent or a literal that [int] accepts: the secret is the
    value of [SECRET_KEY] as it is when that is set, empty or not; the
    value of [AUTH_SECRET] when only that is set; and the secret written
    in the source otherwise. Construction fails exactly when the expiry
    minutes do not parse, with [ValueError]. *)
Theorem load_settings_missing_secret (environ : gmap string string) :
  let minutes_text := Config.getenv environ "ACCESS_TOKEN_EXPIRE_MINUTES" "30" in
  (forall minutes,
     Py.int_of_str minutes_text = Some minutes ->
     exists s,
       Config.load_settings environ = Ok s /\
       Config.ACCESS_TOKEN_EXPIRE_MINUTES s = minutes /\
       Config.SECRET_KEY s = match environ !! "SECRET_KEY" with
                             | Some v => v
                             | None =>
                                 match environ !! "AUTH_SECRET" with
                                 | Some v => v
                                 | None => Config.BUILTIN_SECRET
                                 end
                             end) /\
  (environ !! "SECRET_KEY" = None -> environ !! "AUTH_SECRET" = None ->
   forall s, Config.load_settings environ = Ok s ->
             Config.SECRET_KEY s = Config.BUILTIN_SECRET) /\
  (Py.int_of_str minutes_text = None ->
   Config.load_settings environ = Raise ValueError) /\
  (forall e,
     Config.load_settings environ = Raise e ->
     e = ValueError /\ Py.int_of_str minutes_text = None).
Proof.
  intros minutes_text. subst minutes_text. unfold Config.load_settings, Py.int.
  split; [| split; [| split]].
  - intros minutes ->. cbn. eexists. split; [reflexivity |]. cbn.
    split; [reflexivity |]. unfold Config.getenv.
    now destruct (environ !! "SECRET_KEY").
  - intros Hkey Hauth s.
    destruct (Py.int_of_str (Config.getenv environ "ACCESS_TOKEN_EXPIRE_MINUTES" "30"));
      [| discriminate].
    cbn. intros [= <-]. cbn. unfold Config.getenv. now rewrite Hkey, Hauth.
  - now intros ->.
  - intros e.
    destruct (Py.int_of_str (Config.getenv environ "ACCESS_TOKEN_EXPIRE_MINUTES" "30"));
      [discriminate |].
    cbn. now intros [= <-].
Qed.

Lemma load_settings_missing_secret_witness :
  exists s,
    Config.load_settings {["ALGORITHM" := "HS512"]} = Ok s /\
    Config.ACCESS_TOKEN_EXPIRE_MINUTES s = 30 /\
    Config.SECRET_KEY s = Config.BUILTIN_SECRET.
Proof.
  exact (proj1 (load_settings_missing_secret {["ALGORITHM" := "HS512"]}) 30 eq_refl).
Defined.

(** ** Task creation *)

(** [task_create.model_dump()]: the fields of the body schema. *)
Definition model_dump (task_create : TaskCreate.t) : gmap string json :=
  {[ "title" := JStr (TaskCreate.title task_create);
     "description" := match TaskCreate.description task_create with
                      | Some d => JStr d
                      | None => JNull
                      end;
     "completed" := JBool (TaskCreate.completed task_create) ]}.

(** C10. For every create-task request that passes identity enforcement,
    whatever its body, exactly one row is appended, its owner is the path
    user id, which is the user id of the token, and the answer reports
    that owner; the dumped body has no [user_id] key and only supplies
    title, description and the completed flag. *)
Theorem create_task_owner
    (mac : string -> string -> Jose.signing_input -> string)
    (settings : Config.Settings) (now now_created now_updated : Z)
    (authorization : option Jose.token) (path_user_id user_id : Z)
    (task_create : TaskCreate.t) (db : database) :
  depends_validate_user_id_match mac settings now authorization path_user_id = Ok user_id ->
  exists (r : TaskRead.t) (row : Task.t),
    POST_tasks mac settings now now_created now_updated authorization path_user_id
      task_create db
    = (Ok r, {| users := users db; tasks := tasks db ++ [row] |}) /\
    Task.user_id row = path_user_id /\
    TaskRead.user_id r = path_user_id /\
    (exists token, authorization = Some token /\
                   verify_token mac settings now token = Ok (Some path_user_id)) /\
    model_dump task_create !! "user_id" = None /\
    Task.title row = TaskCreate.title task_create /\
    Task.description row = TaskCreate.description task_create /\
    Task.completed row = TaskCreate.completed task_create.
Proof.
  intros Hdep. unfold POST_tasks. rewrite Hdep.
  apply depends_validate_user_id_match_Ok in Hdep as [-> Htok].
  unfold create_task, insert_task. cbn.
  eexists _, _. split; [reflexivity |]. cbn.
  repeat split; try assumption.
Qed.

Lemma create_task_owner_witness :
  let body := {| TaskCreate.title := "buy milk";
                 TaskCreate.description := None;
                 TaskCreate.completed := false |} in
  exists (r : TaskRead.t) (row : Task.t),
    POST_tasks Sample.mac Sample.settings 1000000 1000001 1000002 (Some sample_token) 1
      body Sample.db
    = (Ok r, {| users := users Sample.db; tasks := tasks Sample.db ++ [row] |}) /\
    Task.user_id row = 1 /\
    TaskRead.user_id r = 1 /\
    (exists token, Some sample_token = Some token /\
                   verify_token Sample.mac Sample.settings 1000000 token = Ok (Some 1)) /\
    model_dump body !! "user_id" = None /\
    Task.title row = TaskCreate.title body /\
    Task.description row = TaskCreate.description body /\
    Task.completed row = TaskCreate.completed body.
Proof.
  apply (create_task_owner Sample.mac Sample.settings 1000000 1000001 1000002
           (Some sample_token) 1 1).
  vm_compute. reflexivity.
Defined.

(** * The rest of the routes *)

(** ** [backend/routes/tasks.py]: read, replace and delete one task *)

Definition task_not_found : exn :=
  HTTPException HTTP_404_NOT_FOUND "Task not found" [].

Definition get_task (id user_id : Z) (db : database) : result TaskRead.t :=
  reraise_or_500 "An unexpected error occurred while retrieving the task"
    (task ← scalar_one_or_none (select_task db id user_id);
     match task with
     | None => Raise (HTTPException HTTP_404_NOT_FOUND "Task not found" [])
     | Some task => Ok (task_read task)
     end).

(** The handler of [PUT]: the same field-by-field update as [PATCH]. *)
Definition update_task (id : Z) (task_update : TaskUpdate.t) (user_id : Z)
    (db : database) : result TaskRead.t * database :=
  let attempt : result (TaskRead.t * database) :=
    task ← scalar_one_or_none (select_task db id user_id);
    match task with
    | None => Raise (HTTPException HTTP_404_NOT_FOUND "Task not found" [])
    | Some task =>
        task' ← apply_update task_update task;
        Ok (task_read task', update_task_row db task')
    end in
  match reraise_or_500 "An unexpected error occurred while updating the task" attempt with
  | Ok (r, db') => (Ok r, db')
  | Raise e => (Raise e, db)
  end.

(** [delete] and [commit] of a task: the row with its key is removed. *)
Definition delete_task_row (db : database) (t : Task.t) : database :=
  {| users := users db;
     tasks := filter (fun r => Task.id r <> Task.id t) (tasks db) |}.

Definition delete_task (id user_id : Z) (db : database) : result unit * database :=
  let attempt : result (unit * database) :=
    task ← scalar_one_or_none (select_task db id user_id);
    match task with
    | None => Raise (HTTPException HTTP_404_NOT_FOUND "Task not found" [])
    | Some task => Ok (tt, delete_task_row db task)
    end in
  match reraise_or_500 "An unexpected error occurred while deleting the task" attempt with
  | Ok (r, db') => (Ok r, db')
  | Raise e => (Raise e, db)
  end.

(** ** [backend/routes/auth.py]: the current user *)

(** [select(User).where(User.id == user_id)] *)
Definition select_user_by_id (db : database) (user_id : Z) : list User.t :=
  filter (fun u => User.id u = user_id) (users db).

Definition user_read (u : User.t) : UserRead.t :=
  {| UserRead.id := User.id u;
     UserRead.email := User.email u;
     UserRead.created_at := User.created_at u;
     UserRead.is_active := User.is_active u |}.




(** The handler of [GET /me]. Its first statement, inside the [try], is
    [from backend.utils import verify_token]; [import_backend_utils] is the
    outcome of that import in the running process. *)
Definition get_current_user
    (mac : string -> string -> Jose.signing_input -> string)
    (settings : Config.Settings) (import_backend_utils : result unit)
    (now : Z) (token : Jose.token) (db : database) : result UserRead.t :=
  reraise_or_500 "An unexpected error occurred while retrieving user data"
    (import_backend_utils;;
     user_id ← verify_token mac settings now token;
     match user_id with
     | None =>
         Raise (HTTPException HTTP_401_UNAUTHORIZED "Invalid or expired token"
                  WWW_AUTHENTICATE_BEARER)
     | Some user_id =>
         user ← scalar_one_or_none (select_user_by_id db user_id);
         match user with
         | None => Raise (HTTPException HTTP_404_NOT_FOUND "User not found" [])
         | Some user =>
             Ok {| UserRead.id := User.id user;
                   UserRead.email := User.email user;
                   UserRead.created_at := User.created_at user;
                   UserRead.is_active := User.is_active user |}
         end
     end).

(** [GET /me] as a client reaches it: the bearer credentials, then the
    handler. *)
Definition GET_me
    (mac : string -> string -> Jose.signing_input -> string)
    (settings : Config.Settings) (import_backend_utils : result unit)
    (now : Z) (authorization : option Jose.token) (db : database)
    : result UserRead.t :=
  token ← oauth2_scheme authorization;
  get_current_user mac settings import_backend_utils now token db.

(** ** Key constraints of the tables *)

(** The primary key of [Task]. *)
Definition task_keys_unique (db : database) : Prop :=
  NoDup (Task.id <$> tasks db).

(** The primary key of [User] and the unique constraint on its email. *)
Definition user_keys_unique (db : database) : Prop :=
  NoDup (User.id <$> users db) /\ NoDup (User.email <$> users db).

(** The tasks of one owner, the rest of the table dropped. *)
Definition only_tasks_of (user_id : Z) (db : database) : database :=
  {| users := users db; tasks := select_tasks_by_user db user_id |}.

(** * Further properties *)

(** ** Login *)

Definition inactive_user : exn :=
  HTTPException HTTP_401_UNAUTHORIZED "Inactive user" WWW_AUTHENTICATE_BEARER.




Section Login.

Variable mac : string -> string -> Jose.signing_input -> string.
Variable handler : Passlib.handler.
Variable settings : Config.Settings.








Lemma verify_password_overlong (plain hashed : string) :
  (Passlib.MAX_PASSWORD_SIZE < String.length plain)%nat ->
  exists e, verify_password handler plain hashed = Raise e.
Proof.
  intros Hlen. unfold verify_password, Passlib.verify, Passlib.validate_secret.
  destruct (Passlib.identify hashed); cbn [negb];
    [| destruct (bool_decide (hashed = "")); now eexists].
  destruct (Nat.ltb_spec Passlib.MAX_PASSWORD_SIZE (String.length plain)); [| lia].
  now eexists.
Qed.

End Login.


Definition alice_form : OAuth2PasswordRequestForm.t :=
  {| OAuth2PasswordRequestForm.username := "alice@example.com";
     OAuth2PasswordRequestForm.password := "secret123" |}.



(** X2. A login with the email of exactly one user and a password that
    verifies is refused with 401 "Inactive user" when the account is not
    active: no token is issued, and the answer differs from the one for a
    wrong password. *)
Theorem login_inactive_user_refused
    (mac : string -> string -> Jose.signing_input -> string)
    (handler : Passlib.handler) (settings : Config.Settings)
    (now : Z) (form : OAuth2PasswordRequestForm.t) (db : database) (user : User.t) :
  select_user_by_email db (OAuth2PasswordRequestForm.username form) = [user] ->
  verify_password handler (OAuth2PasswordRequestForm.password form)
    (User.hashed_password user) = Ok true ->
  User.is_active user = false ->
  login_user mac handler settings now form db = Raise inactive_user /\
  inactive_user <> incorrect_credentials.
Proof.
  intros Hsel Hpw Hact. split; [| discriminate].
  unfold login_user. rewrite Hsel. cbn. rewrite Hpw. cbn. now rewrite Hact.
Qed.

Definition dormant_alice : User.t :=
  {| User.id := User.id Sample.alice;
     User.email := User.email Sample.alice;
     User.created_at := User.created_at Sample.alice;
     User.hashed_password := User.hashed_password Sample.alice;
     User.is_active := false |}.

Lemma login_inactive_user_refused_witness :
  login_user Sample.mac Sample.handler Sample.settings 0 alice_form
    {| users := [dormant_alice]; tasks := [] |} = Raise inactive_user /\
  inactive_user <> incorrect_credentials.
Proof.
  apply (login_inactive_user_refused Sample.mac Sample.handler Sample.settings 0
           alice_form {| users := [dormant_alice]; tasks := [] |} dormant_alice).
  - reflexivity.
  - vm_compute. reflexivity.
  - reflexivity.
Defined.

(** X3. A login with the email of exactly one user and a password longer
    than the hashing library's limit is answered with 401 "Authentication
    error", whatever digest is stored, while the same request for an email
    that matches no user is answered with 401 "Incorrect email or
    password": the two answers differ. *)
Theorem login_overlong_password_distinguishes
    (mac : string -> string -> Jose.signing_input -> string)
    (handler : Passlib.handler) (settings : Config.Settings)
    (now : Z) (password : string) (known unknown : string)
    (db : database) (user : User.t) :
  (Passlib.MAX_PASSWORD_SIZE < String.length password)%nat ->
  select_user_by_email db known = [user] ->
  select_user_by_email db unknown = [] ->
  let form email := {| OAuth2PasswordRequestForm.username := email;
                       OAuth2PasswordRequestForm.password := password |} in
  login_user mac handler settings now (form known) db = Raise authentication_error /\
  login_user mac handler settings now (form unknown) db = Raise incorrect_credentials /\
  login_user mac handler settings now (form known) db
  <> login_user mac handler settings now (form unknown) db.
Proof.
  intros Hlen Hknown Hunknown form.
  destruct (verify_password_overlong handler password (User.hashed_password user) Hlen)
    as [e He].
  assert (login_user mac handler settings now (form known) db = Raise authentication_error)
    as H1 by (apply (login_user_verify_raises handler mac settings now (form known) db user e);
              assumption).
  assert (login_user mac handler settings now (form unknown) db = Raise incorrect_credentials)
    as H2 by (unfold login_user; cbn; now rewrite Hunknown).
  repeat split; try assumption. rewrite H1, H2. discriminate.
Qed.

Lemma login_overlong_password_distinguishes_witness :
  let form email := {| OAuth2PasswordRequestForm.username := email;
                       OAuth2PasswordRequestForm.password := Sample.squash 4097 "" |} in
  login_user Sample.mac Sample.handler Sample.settings 0 (form "alice@example.com") Sample.db
  = Raise authentication_error /\
  login_user Sample.mac Sample.handler Sample.settings 0 (form "bob@example.com") Sample.db
  = Raise incorrect_credentials /\
  login_user Sample.mac Sample.handler Sample.settings 0 (form "alice@example.com") Sample.db
  <> login_user Sample.mac Sample.handler Sample.settings 0 (form "bob@example.com") Sample.db.
Proof.
  apply (login_overlong_password_distinguishes Sample.mac Sample.handler Sample.settings 0
           (Sample.squash 4097 "") "alice@example.com" "bob@example.com"
           Sample.db Sample.alice).
  - rewrite Sample.squash_length. unfold Passlib.MAX_PASSWORD_SIZE. lia.
  - reflexivity.
  - reflexivity.
Defined.

(** ** The path dependency *)

Lemma encode_raises (mac : string -> string -> Jose.signing_input -> string)
    (c : gmap string pyval) (key algorithm : string) (e : exn) :
  Jose.encode mac c key algorithm = Raise e -> e = JWSError \/ e = TypeError.
Proof.
  unfold Jose.encode.
  destruct (negb (bool_decide (algorithm ∈ Jose.HMAC_ALGORITHMS)));
    [intros [= <-]; now left |].
  destruct (negb (bool_decide (map_Forall _ _))); [intros [= <-]; now right | discriminate].
Qed.



(** ** Reading tasks *)

Lemma scalar_one_or_none_Some {A : Type} (rows : list A) (row : A) :
  scalar_one_or_none rows = Ok (Some row) -> rows = [row].
Proof. destruct rows as [| a [| b rows]]; cbn; congruence. Qed.

Lemma scalar_one_or_none_None {A : Type} (rows : list A) :
  scalar_one_or_none rows = Ok None -> rows = [].
Proof. destruct rows as [| a [| b rows]]; cbn; congruence. Qed.

Lemma select_task_via_owner (db : database) (id user_id : Z) :
  select_task db id user_id
  = filter (fun t => Task.id t = id) (select_tasks_by_user db user_id).
Proof.
  unfold select_task, select_tasks_by_user.
  induction (tasks db) as [| t l IH]; [reflexivity |].
  rewrite !filter_cons, IH.
  destruct (decide (Task.user_id t = user_id)) as [Hu | Hu].
  - rewrite filter_cons.
    destruct (decide (Task.id t = id)) as [Hi | Hi].
    + now rewrite decide_True by tauto.
    + now rewrite decide_False by tauto.
  - now rewrite decide_False by tauto.
Qed.


Lemma get_task_found (db : database) (id user_id : Z) (t : Task.t) :
  select_task db id user_id = [t] -> get_task id user_id db = Ok (task_read t).
Proof. intros H. unfold get_task. now rewrite H. Qed.

Lemma get_task_missing (db : database) (id user_id : Z) :
  select_task db id user_id = [] -> get_task id user_id db = Raise task_not_found.
Proof. intros H. unfold get_task. now rewrite H. Qed.



(** X6. What a user reads depends on that user's rows only: on two
    databases that hold the same tasks for [user_id], [list_tasks] and
    [get_task] give the same answers, whatever the other users' tasks
    are; and the list is exactly that user's stored tasks, in table
    order. *)
Theorem reads_depend_on_own_rows (id user_id : Z) (db db' : database) :
  select_tasks_by_user db user_id = select_tasks_by_user db' user_id ->
  list_tasks user_id db = list_tasks user_id db' /\
  get_task id user_id db = get_task id user_id db' /\
  list_tasks user_id db = Ok (task_read <$> select_tasks_by_user db user_id) /\
  (forall t, t ∈ select_tasks_by_user db user_id <->
             t ∈ tasks db /\ Task.user_id t = user_id).
Proof.
  intros Hsame. split; [| split; [| split]].
  - unfold list_tasks. now rewrite Hsame.
  - unfold get_task. now rewrite !select_task_via_owner, Hsame.
  - reflexivity.
  - intros t. unfold select_tasks_by_user. rewrite list_elem_of_filter. tauto.
Qed.

Lemma reads_depend_on_own_rows_witness :
  list_tasks 1 Sample.db = list_tasks 1 (only_tasks_of 1 Sample.db) /\
  get_task 1 1 Sample.db = get_task 1 1 (only_tasks_of 1 Sample.db).
Proof.
  split; apply (reads_depend_on_own_rows 1 1 Sample.db (only_tasks_of 1 Sample.db));
    reflexivity.
Defined.

(** ** Changing tasks *)

Section Rows.

Implicit Types (l : list Task.t) (t r : Task.t).

(** Under the primary key, the table splits around a row: no other row
    carries its key. *)
Lemma split_at_key l t :
  NoDup (Task.id <$> l) -> t ∈ l ->
  exists l1 l2, l = (l1 ++ t :: l2)%list /\
    (forall r, r ∈ l1 -> Task.id r <> Task.id t) /\
    (forall r, r ∈ l2 -> Task.id r <> Task.id t).
Proof.
  intros Hnd Ht. apply list_elem_of_split in Ht as (l1 & l2 & ->).
  exists l1, l2. split; [reflexivity |].
  rewrite fmap_app, fmap_cons in Hnd.
  apply NoDup_app in Hnd as (_ & Hdis & Hnd).
  apply NoDup_cons in Hnd as [Hnot _].
  split; intros r Hr Heq.
  - apply (Hdis (Task.id r)); [now apply list_elem_of_fmap_2 |].
    rewrite Heq. now left.
  - apply Hnot. rewrite <- Heq. now apply list_elem_of_fmap_2.
Qed.

Lemma replace_away l (t' : Task.t) :
  (forall r, r ∈ l -> Task.id r <> Task.id t') ->
  (fun r => if bool_decide (Task.id r = Task.id t') then t' else r) <$> l = l.
Proof.
  induction l as [| a l IH]; intros Hno; [reflexivity |].
  rewrite fmap_cons, IH by (intros r Hr; apply Hno; now right).
  rewrite bool_decide_eq_false_2; [reflexivity |]. apply Hno. now left.
Qed.

Lemma remove_away l (i : Z) :
  (forall r, r ∈ l -> Task.id r <> i) ->
  filter (fun r => Task.id r <> i) l = l.
Proof.
  induction l as [| a l IH]; intros Hno; [reflexivity |].
  rewrite filter_cons_True by (apply Hno; now left).
  now rewrite IH by (intros r Hr; apply Hno; now right).
Qed.

Lemma select_away l (i u : Z) :
  (forall r, r ∈ l -> Task.id r <> i) ->
  filter (fun r => Task.id r = i /\ Task.user_id r = u) l = [].
Proof.
  induction l as [| a l IH]; intros Hno; [reflexivity |].
  rewrite filter_cons_False.
  - apply IH. intros r Hr. apply Hno. now right.
  - intros [Hi _]. apply (Hno a); [now left | assumption].
Qed.

Lemma update_task_row_split (db : database) l1 l2 t (t' : Task.t) :
  tasks db = (l1 ++ t :: l2)%list ->
  Task.id t' = Task.id t ->
  (forall r, r ∈ l1 -> Task.id r <> Task.id t) ->
  (forall r, r ∈ l2 -> Task.id r <> Task.id t) ->
  tasks (update_task_row db t') = (l1 ++ t' :: l2)%list.
Proof.
  intros Hsplit Hid H1 H2. unfold update_task_row. cbn [tasks].
  rewrite Hsplit, fmap_app, fmap_cons.
  rewrite !replace_away by (rewrite Hid; assumption).
  now rewrite bool_decide_eq_true_2 by congruence.
Qed.

Lemma delete_task_row_split (db : database) l1 l2 t :
  tasks db = (l1 ++ t :: l2)%list ->
  (forall r, r ∈ l1 -> Task.id r <> Task.id t) ->
  (forall r, r ∈ l2 -> Task.id r <> Task.id t) ->
  tasks (delete_task_row db t) = (l1 ++ l2)%list.
Proof.
  intros Hsplit H1 H2. unfold delete_task_row. cbn [tasks].
  rewrite Hsplit, filter_app, filter_cons_False by (intros H; now apply H).
  now rewrite !remove_away by assumption.
Qed.

Lemma select_task_split (db : database) l1 l2 t :
  tasks db = (l1 ++ t :: l2)%list ->
  (forall r, r ∈ l1 -> Task.id r <> Task.id t) ->
  (forall r, r ∈ l2 -> Task.id r <> Task.id t) ->
  select_task db (Task.id t) (Task.user_id t) = [t].
Proof.
  intros Hsplit H1 H2. unfold select_task.
  rewrite Hsplit, filter_app, filter_cons_True by tauto.
  now rewrite !select_away by assumption.
Qed.

Lemma apply_update_frame (task_update : TaskUpdate.t) t (t' : Task.t) :
  apply_update task_update t = Ok t' ->
  Task.id t' = Task.id t /\ Task.user_id t' = Task.user_id t /\
  Task.created_at t' = Task.created_at t /\ Task.updated_at t' = Task.updated_at t.
Proof.
  unfold apply_update.
  destruct (TaskUpdate.title task_update) as [| [v |]]; cbn; try discriminate;
    destruct (TaskUpdate.completed task_update) as [| [w |]]; cbn; try discriminate;
    intros [= <-]; repeat split.
Qed.

Lemma select_task_elem (db : database) (id user_id : Z) t :
  select_task db id user_id = [t] ->
  t ∈ tasks db /\ Task.id t = id /\ Task.user_id t = user_id.
Proof.
  intros Hs. assert (t ∈ select_task db id user_id) as Hin by (rewrite Hs; now left).
  apply list_elem_of_filter in Hin. tauto.
Qed.

Lemma partial_update_task_Ok (id : Z) (task_update : TaskUpdate.t) (user_id : Z)
    (db db' : database) (r : TaskRead.t) :
  partial_update_task id task_update user_id db = (Ok r, db') ->
  exists t t', select_task db id user_id = [t] /\
               apply_update task_update t = Ok t' /\
               r = task_read t' /\ db' = update_task_row db t'.
Proof.
  unfold partial_update_task.
  destruct (scalar_one_or_none (select_task db id user_id)) as [[t |] | e] eqn:Hs; cbn;
    [| discriminate | destruct (isinstance_HTTPException e); discriminate].
  apply scalar_one_or_none_Some in Hs.
  destruct (apply_update task_update t) as [t' | e] eqn:Hup; cbn;
    [| destruct (isinstance_HTTPException e); discriminate].
  intros [= <- <-]. now exists t, t'.
Qed.

Lemma delete_task_Ok (id user_id : Z) (db db' : database) :
  delete_task id user_id db = (Ok tt, db') ->
  exists t, select_task db id user_id = [t] /\ db' = delete_task_row db t.
Proof.
  unfold delete_task.
  destruct (scalar_one_or_none (select_task db id user_id)) as [[t |] | e] eqn:Hs; cbn;
    [| discriminate | destruct (isinstance_HTTPException e); discriminate].
  apply scalar_one_or_none_Some in Hs. intros [= <-]. now exists t.
Qed.

End Rows.

(** X7. Under the primary key of the task table, a successful partial
    update replaces exactly one row, in place: every other row, of this
    user or of any other, stays as it is and where it is. The replaced row
    is the requester's, and the update never changes its id, its owner or
    either of its timestamps. The answer is the new row, and reading the
    task back returns the same answer. *)
Theorem partial_update_replaces_one_row (id : Z) (task_update : TaskUpdate.t)
    (user_id : Z) (db db' : database) (r : TaskRead.t) :
  task_keys_unique db ->
  partial_update_task id task_update user_id db = (Ok r, db') ->
  exists l1 t t' l2,
    tasks db = (l1 ++ t :: l2)%list /\
    tasks db' = (l1 ++ t' :: l2)%list /\
    users db' = users db /\
    r = task_read t' /\
    Task.id t = id /\ Task.user_id t = user_id /\
    Task.id t' = id /\ Task.user_id t' = user_id /\
    Task.created_at t' = Task.created_at t /\
    Task.updated_at t' = Task.updated_at t /\
    get_task id user_id db' = Ok r /\
    task_keys_unique db'.
Proof.
  intros Hkeys Hpatch.
  apply partial_update_task_Ok in Hpatch as (t & t' & Hsel & Hup & -> & ->).
  apply select_task_elem in Hsel as (Hin & Hid & Hu).
  apply apply_update_frame in Hup as (Hid' & Hu' & Hc & Hm).
  destruct (split_at_key (tasks db) t Hkeys Hin) as (l1 & l2 & Hsplit & H1 & H2).
  pose proof (update_task_row_split db l1 l2 t t' Hsplit Hid' H1 H2) as Hnew.
  exists l1, t, t', l2.
  split; [assumption |]. split; [assumption |]. split; [reflexivity |].
  split; [reflexivity |].
  repeat (split; [congruence |]).
  split.
  - apply get_task_found. rewrite <- Hid, <- Hu, <- Hid', <- Hu'.
    apply (select_task_split _ l1 l2 t' Hnew); rewrite Hid'; assumption.
  - unfold task_keys_unique in *. rewrite Hnew.
    rewrite Hsplit in Hkeys. rewrite fmap_app, fmap_cons in *. now rewrite Hid'.
Qed.

Definition rename_task : TaskUpdate.t :=
  {| TaskUpdate.title := Given (Some "buy oat milk");
     TaskUpdate.description := Given None;
     TaskUpdate.completed := Unset |}.

Lemma sample_task_keys_unique : task_keys_unique Sample.db.
Proof.
  unfold task_keys_unique. cbn.
  apply NoDup_cons. split; [| apply NoDup_singleton].
  intros H. apply list_elem_of_singleton in H. discriminate H.
Qed.

Lemma partial_update_replaces_one_row_witness :
  exists l1 t t' l2,
    tasks Sample.db = (l1 ++ t :: l2)%list /\
    tasks (partial_update_task 1 rename_task 1 Sample.db).2 = (l1 ++ t' :: l2)%list /\
    users (partial_update_task 1 rename_task 1 Sample.db).2 = users Sample.db /\
    task_read {| Task.id := 1; Task.title := "buy oat milk"; Task.description := None;
                 Task.completed := false; Task.user_id := 1;
                 Task.created_at := 5000000; Task.updated_at := 5000000 |}
    = task_read t' /\
    Task.id t = 1 /\ Task.user_id t = 1 /\
    Task.id t' = 1 /\ Task.user_id t' = 1 /\
    Task.created_at t' = Task.created_at t /\
    Task.updated_at t' = Task.updated_at t /\
    get_task 1 1 (partial_update_task 1 rename_task 1 Sample.db).2
    = Ok (task_read {| Task.id := 1; Task.title := "buy oat milk";
                       Task.description := None; Task.completed := false;
                       Task.user_id := 1; Task.created_at := 5000000;
                       Task.updated_at := 5000000 |}) /\
    task_keys_unique (partial_update_task 1 rename_task 1 Sample.db).2.
Proof.
  apply (partial_update_replaces_one_row 1 rename_task 1 Sample.db).
  - apply sample_task_keys_unique.
  - reflexivity.
Defined.

(** The shape shared by the handlers that change a row: an attempt, the
    closing handlers, and the database kept as it was when an exception
    leaves the handler. *)
Definition finish {A : Type} (detail : string) (attempt : result (A * database))
    (db : database) : result A * database :=
  match reraise_or_500 detail attempt with
  | Ok (r, db') => (Ok r, db')
  | Raise e => (Raise e, db)
  end.

Lemma finish_agree {A : Type} (detail detail' : string)
    (attempt : result (A * database)) (db : database) :
  (finish detail attempt db).2 = (finish detail' attempt db).2 /\
  (forall r, (finish detail attempt db).1 = Ok r <-> (finish detail' attempt db).1 = Ok r) /\
  ((finish detail attempt db).1 = Raise task_not_found <->
   (finish detail' attempt db).1 = Raise task_not_found).
Proof.
  unfold finish, reraise_or_500.
  destruct attempt as [[r db'] | e]; cbn; [tauto |].
  destruct (isinstance_HTTPException e); cbn; [tauto |].
  split; [reflexivity |]. split; [intros r |]; split; discriminate.
Qed.

Lemma apply_update_unset (task_update : TaskUpdate.t) (t t' : Task.t) :
  apply_update task_update t = Ok t' ->
  (TaskUpdate.title task_update = Unset -> Task.title t' = Task.title t) /\
  (TaskUpdate.description task_update = Unset ->
     Task.description t' = Task.description t) /\
  (TaskUpdate.completed task_update = Unset -> Task.completed t' = Task.completed t).
Proof.
  unfold apply_update.
  destruct (TaskUpdate.title task_update) as [| [v |]]; cbn; try discriminate;
    destruct (TaskUpdate.completed task_update) as [| [w |]]; cbn; try discriminate;
    destruct (TaskUpdate.description task_update) as [| d]; intros [= <-]; cbn;
    (split; [| split]); intros H; try discriminate H; reflexivity.
Qed.

Lemma update_task_Ok (id : Z) (task_update : TaskUpdate.t) (user_id : Z)
    (db : database) (r : TaskRead.t) :
  (update_task id task_update user_id db).1 = Ok r ->
  exists t t', select_task db id user_id = [t] /\
               apply_update task_update t = Ok t' /\ r = task_read t'.
Proof.
  unfold update_task.
  destruct (scalar_one_or_none (select_task db id user_id)) as [[t |] | e] eqn:Hs; cbn;
    [| discriminate | destruct (isinstance_HTTPException e); discriminate].
  apply scalar_one_or_none_Some in Hs.
  destruct (apply_update task_update t) as [t' | e] eqn:Hup; cbn;
    [| destruct (isinstance_HTTPException e); discriminate].
  intros [= <-]. now exists t, t'.
Qed.

(** X8. [PUT] is a partial update too: on every request [update_task]
    leaves the database exactly as [partial_update_task] does, succeeds
    with the same answer whenever that one succeeds, and answers 404
    exactly when that one does; a field left out of the body of a [PUT]
    keeps its stored value. *)
Theorem put_is_partial_update (id : Z) (task_update : TaskUpdate.t)
    (user_id : Z) (db : database) :
  (update_task id task_update user_id db).2
  = (partial_update_task id task_update user_id db).2 /\
  (forall r,
     (update_task id task_update user_id db).1 = Ok r <->
     (partial_update_task id task_update user_id db).1 = Ok r) /\
  ((update_task id task_update user_id db).1 = Raise task_not_found <->
   (partial_update_task id task_update user_id db).1 = Raise task_not_found) /\
  (forall t r,
     select_task db id user_id = [t] ->
     (update_task id task_update user_id db).1 = Ok r ->
     (TaskUpdate.title task_update = Unset -> TaskRead.title r = Task.title t) /\
     (TaskUpdate.description task_update = Unset ->
        TaskRead.description r = Task.description t) /\
     (TaskUpdate.completed task_update = Unset ->
        TaskRead.completed r = Task.completed t)).
Proof.
  pose proof (finish_agree
                "An unexpected error occurred while updating the task"
                "An unexpected error occurred while partially updating the task"
                (task ← scalar_one_or_none (select_task db id user_id);
                 match task with
                 | None => Raise (HTTPException HTTP_404_NOT_FOUND "Task not found" [])
                 | Some task =>
                     task' ← apply_update task_update task;
                     Ok (task_read task', update_task_row db task')
                 end) db) as (Hdb & Hok & Hnf).
  split; [exact Hdb |]. split; [exact Hok |]. split; [exact Hnf |].
  intros t r Hsel Hput.
  apply update_task_Ok in Hput as (t0 & t' & Hsel' & Hup & ->).
  rewrite Hsel in Hsel'. injection Hsel' as <-.
  exact (apply_update_unset task_update t t' Hup).
Qed.

Lemma put_is_partial_update_witness :
  (update_task 1 patch_completed 1 Sample.db).1
  = Ok (task_read {| Task.id := 1; Task.title := "buy milk"; Task.description := None;
                     Task.completed := true; Task.user_id := 1;
                     Task.created_at := 5000000; Task.updated_at := 5000000 |}).
Proof.
  apply (proj1 (proj2 (put_is_partial_update 1 patch_completed 1 Sample.db))).
  reflexivity.
Defined.

(** X9. Under the primary key of the task table, a successful delete
    removes exactly one row, the requester's task with that id, and leaves
    every other row and the user table as they are; afterwards the id is
    answered with 404 for every user, and the primary key still holds. *)
Theorem delete_removes_one_row (id user_id : Z) (db db' : database) :
  task_keys_unique db ->
  delete_task id user_id db = (Ok tt, db') ->
  exists l1 t l2,
    tasks db = (l1 ++ t :: l2)%list /\
    tasks db' = (l1 ++ l2)%list /\
    users db' = users db /\
    Task.id t = id /\ Task.user_id t = user_id /\
    (forall anyone, get_task id anyone db' = Raise task_not_found) /\
    task_keys_unique db'.
Proof.
  intros Hkeys Hdel.
  apply delete_task_Ok in Hdel as (t & Hsel & ->).
  apply select_task_elem in Hsel as (Hin & Hid & Hu).
  destruct (split_at_key (tasks db) t Hkeys Hin) as (l1 & l2 & Hsplit & H1 & H2).
  pose proof (delete_task_row_split db l1 l2 t Hsplit H1 H2) as Hnew.
  exists l1, t, l2.
  split; [assumption |]. split; [assumption |]. split; [reflexivity |].
  split; [assumption |]. split; [assumption |]. split.
  - intros anyone. apply get_task_missing. unfold select_task. rewrite Hnew.
    apply select_away. intros r Hr. rewrite <- Hid.
    apply elem_of_app in Hr as [Hr | Hr]; [now apply H1 | now apply H2].
  - unfold task_keys_unique in *. rewrite Hnew. rewrite Hsplit in Hkeys.
    rewrite fmap_app in *. rewrite fmap_cons in Hkeys.
    apply NoDup_app in Hkeys as (Hn1 & Hdis & Hn2).
    apply NoDup_cons in Hn2 as [_ Hn2].
    apply NoDup_app. split; [assumption |]. split; [| assumption].
    intros x Hx Hx2. apply (Hdis x Hx). now right.
Qed.

Lemma delete_removes_one_row_witness :
  exists l1 t l2,
    tasks Sample.db = (l1 ++ t :: l2)%list /\
    tasks (delete_task 1 1 Sample.db).2 = (l1 ++ l2)%list /\
    users (delete_task 1 1 Sample.db).2 = users Sample.db /\
    Task.id t = 1 /\ Task.user_id t = 1 /\
    (forall anyone, get_task 1 anyone (delete_task 1 1 Sample.db).2
                    = Raise task_not_found) /\
    task_keys_unique (delete_task 1 1 Sample.db).2.
Proof.
  apply (delete_removes_one_row 1 1 Sample.db).
  - apply sample_task_keys_unique.
  - reflexivity.
Defined.



(** X11. An explicit [null] in a partial update is applied, not skipped:
    for [title] or [completed] the commit is refused and the request is
    answered with 500, the row unchanged; for [description] the stored
    description is cleared. *)
Theorem patch_explicit_null (id user_id : Z) (task_update : TaskUpdate.t)
    (db : database) (t : Task.t) :
  select_task db id user_id = [t] ->
  (TaskUpdate.title task_update = Given None \/
   TaskUpdate.completed task_update = Given None ->
   partial_update_task id task_update user_id db
   = (Raise (HTTPException HTTP_500_INTERNAL_SERVER_ERROR
               "An unexpected error occurred while partially updating the task" []),
      db)) /\
  (TaskUpdate.description task_update = Given None ->
   forall r db',
     partial_update_task id task_update user_id db = (Ok r, db') ->
     TaskRead.description r = None).
Proof.
  intros Hsel. unfold partial_update_task, apply_update. rewrite Hsel. cbn. split.
  - intros [Ht | Hc].
    + now rewrite Ht.
    + rewrite Hc. now destruct (TaskUpdate.title task_update) as [| [v |]].
  - intros Hd r db'. rewrite Hd.
    destruct (TaskUpdate.title task_update) as [| [v |]]; cbn; try discriminate;
      destruct (TaskUpdate.completed task_update) as [| [w |]]; cbn; try discriminate;
      now intros [= <- <-].
Qed.

Definition null_title : TaskUpdate.t :=
  {| TaskUpdate.title := Given None;
     TaskUpdate.description := Unset;
     TaskUpdate.completed := Unset |}.

Lemma patch_explicit_null_witness :
  partial_update_task 1 null_title 1 Sample.db
  = (Raise (HTTPException HTTP_500_INTERNAL_SERVER_ERROR
              "An unexpected error occurred while partially updating the task" []),
     Sample.db).
Proof.
  apply (patch_explicit_null 1 1 null_title Sample.db Sample.buy_milk).
  - reflexivity.
  - now left.
Defined.

(** ** Creating tasks and users *)

Lemma next_id_above (ids : list Z) (x : Z) : x ∈ ids -> x < next_id ids.
Proof.
  unfold next_id. induction ids as [| a ids IH]; intros Hx.
  - now apply elem_of_nil in Hx.
  - cbn [foldr]. apply elem_of_cons in Hx as [-> | Hx]; [lia |].
    specialize (IH Hx). lia.
Qed.

Lemma next_id_fresh (ids : list Z) : next_id ids ∉ ids.
Proof. intros H. apply next_id_above in H. lia. Qed.

(** X12. [create_task] always succeeds and appends one row at the end of
    the table: its id is larger than every stored id, its owner is the
    given user, its timestamps are the two clock readings. The new task
    can be read back by its owner, it is the last entry of the owner's
    list, the lists of all other users are as before, and the primary key
    of the table is kept. *)
Theorem create_task_appends (now_created now_updated : Z)
    (task_create : TaskCreate.t) (user_id : Z) (db : database) :
  exists t,
    let db' := {| users := users db; tasks := tasks db ++ [t] |} in
    create_task now_created now_updated task_create user_id db = (Ok (task_read t), db') /\
    (forall r, r ∈ tasks db -> Task.id r < Task.id t) /\
    Task.user_id t = user_id /\
    Task.created_at t = now_created /\ Task.updated_at t = now_updated /\
    get_task (Task.id t) user_id db' = Ok (task_read t) /\
    list_tasks user_id db'
    = Ok ((task_read <$> select_tasks_by_user db user_id) ++ [task_read t])%list /\
    (forall other, other <> user_id -> list_tasks other db' = list_tasks other db) /\
    (task_keys_unique db -> task_keys_unique db').
Proof.
  eexists. cbv zeta. split; [reflexivity |].
  set (t := new_task task_create user_id now_created now_updated
              (next_id (Task.id <$> tasks db))).
  assert (forall r, r ∈ tasks db -> Task.id r < Task.id t) as Habove.
  { intros r Hr. cbn. apply next_id_above. now apply list_elem_of_fmap_2. }
  split; [exact Habove |].
  split; [reflexivity |]. split; [reflexivity |]. split; [reflexivity |].
  split; [| split; [| split]].
  - apply get_task_found. unfold select_task. cbn [tasks].
    rewrite filter_app, select_away, filter_cons_True by
      first [ now split | intros r Hr; specialize (Habove r Hr); cbn in *; lia ].
    reflexivity.
  - unfold list_tasks, select_tasks_by_user. cbn [tasks reraise_or_500].
    rewrite filter_app, filter_cons_True by reflexivity.
    now rewrite fmap_app.
  - intros other Hne. unfold list_tasks, select_tasks_by_user. cbn [tasks].
    rewrite filter_app, filter_cons_False by (cbn; congruence).
    now rewrite app_nil_r.
  - unfold task_keys_unique. cbn [tasks]. intros Hkeys.
    rewrite fmap_app. apply NoDup_app. split; [assumption |].
    split; [| apply NoDup_singleton].
    intros x Hx Hx'. apply list_elem_of_singleton in Hx' as ->.
    apply list_elem_of_fmap in Hx as (r & Heq & Hr).
    specialize (Habove r Hr). lia.
Qed.

Lemma insert_user_Ok (db db' : database) (email hashed : string) (now : Z) (u : User.t) :
  insert_user db email hashed now = Ok (u, db') ->
  (email ∉ User.email <$> users db) /\
  u = {| User.id := next_id (User.id <$> users db);
         User.email := email;
         User.created_at := now;
         User.hashed_password := hashed;
         User.is_active := true |} /\
  db' = {| users := users db ++ [u]; tasks := tasks db |}.
Proof.
  unfold insert_user. case_bool_decide as Hin; [discriminate |].
  intros [= <- <-]. repeat split. assumption.
Qed.

Lemma register_user_Ok (handler : Passlib.handler) (salt : string) (now : Z)
    (user_create : UserCreate.t) (db db' : database) (r : UserRead.t) :
  register_user handler salt now user_create db = (Ok r, db') ->
  exists u hashed,
    get_password_hash handler salt (UserCreate.password user_create) = Ok hashed /\
    insert_user db (UserCreate.email user_create) hashed now = Ok (u, db') /\
    r = user_read u.
Proof.
  unfold register_user.
  destruct (scalar_one_or_none (select_user_by_email db (UserCreate.email user_create)))
    as [[existing |] | e]; cbn;
    [discriminate | | destruct (isinstance_HTTPException e); discriminate].
  destruct (get_password_hash handler salt (UserCreate.password user_create))
    as [hashed | e]; cbn; [| discriminate].
  destruct (insert_user db (UserCreate.email user_create) hashed now)
    as [[u db''] | e] eqn:Hins; cbn;
    [| destruct (isinstance_HTTPException e); discriminate].
  intros [= <- <-]. now exists u, hashed.
Qed.

Lemma register_user_Raise (handler : Passlib.handler) (salt : string) (now : Z)
    (user_create : UserCreate.t) (db db' : database) (e : exn) :
  register_user handler salt now user_create db = (Raise e, db') -> db' = db.
Proof.
  unfold register_user.
  destruct (reraise_or_500 _ _) as [[r d] | e']; cbn; congruence.
Qed.

(** X13. [register_user] keeps the key constraints of the user table: if
    ids and emails are unique before the call they are unique after it,
    whatever the outcome. A successful registration stores an active user
    with a fresh id and the creation time of the call, never changes the
    task table, and a failed one changes nothing. *)
Theorem register_user_keeps_keys (handler : Passlib.handler) (salt : string) (now : Z)
    (user_create : UserCreate.t) (db : database) :
  user_keys_unique db ->
  user_keys_unique (register_user handler salt now user_create db).2 /\
  tasks (register_user handler salt now user_create db).2 = tasks db /\
  (forall r,
     (register_user handler salt now user_create db).1 = Ok r ->
     (UserRead.id r ∉ User.id <$> users db) /\
     UserRead.is_active r = true /\
     UserRead.created_at r = now) /\
  (forall e,
     (register_user handler salt now user_create db).1 = Raise e ->
     (register_user handler salt now user_create db).2 = db).
Proof.
  intros [Hids Hemails].
  destruct (register_user handler salt now user_create db) as [[r | e] db'] eqn:Hreg;
    cbn [fst snd].
  - apply register_user_Ok in Hreg as (u & hashed & _ & Hins & ->).
    apply insert_user_Ok in Hins as (Hfresh & -> & ->). cbn [users tasks].
    split; [| split; [reflexivity |]; split; [| discriminate]].
    + unfold user_keys_unique. cbn [users]. rewrite !fmap_app. cbn.
      split; apply NoDup_app; (split; [assumption |]);
        (split; [| apply NoDup_singleton]);
        intros x Hx Hx'; apply list_elem_of_singleton in Hx' as ->.
      * now apply next_id_fresh in Hx.
      * now apply Hfresh.
    + intros r [= <-]. cbn. split; [apply next_id_fresh | now split].
  - apply register_user_Raise in Hreg as ->.
    split; [now split |]. split; [reflexivity |]. split; [discriminate | reflexivity].
Qed.

Lemma sample_user_keys_unique : user_keys_unique Sample.db.
Proof. split; cbn; apply NoDup_singleton. Qed.

Lemma register_user_keeps_keys_witness :
  let bob := {| UserCreate.email := "bob@example.com"; UserCreate.password := "hunter2" |} in
  user_keys_unique (register_user Sample.handler Sample.salt 2000 bob Sample.db).2.
Proof.
  apply (register_user_keeps_keys Sample.handler Sample.salt 2000
           {| UserCreate.email := "bob@example.com"; UserCreate.password := "hunter2" |}
           Sample.db).
  apply sample_user_keys_unique.
Defined.

(** ** Registration, login and the current user together *)







(** X16. The handler of [GET /me] imports [verify_token] from the package
    [backend] inside its [try] block. In a process where that import
    raises, every request to the endpoint that carries bearer credentials
    is answered with 500, whatever the token and the database are. *)
Theorem current_user_import_failure
    (mac : string -> string -> Jose.signing_input -> string)
    (settings : Config.Settings) (e : exn)
    (now : Z) (token : Jose.token) (db : database) :
  isinstance_HTTPException e = false ->
  get_current_user mac settings (Raise e) now token db
  = Raise (HTTPException HTTP_500_INTERNAL_SERVER_ERROR
             "An unexpected error occurred while retrieving user data" []) /\
  GET_me mac settings (Raise e) now (Some token) db
  = Raise (HTTPException HTTP_500_INTERNAL_SERVER_ERROR
             "An unexpected error occurred while retrieving user data" []).
Proof.
  intros He. unfold GET_me, get_current_user. cbn. now rewrite He.
Qed.

Lemma current_user_import_failure_witness :
  GET_me Sample.mac Sample.settings (Raise TypeError) 60000000 (Some sample_token) Sample.db
  = Raise (HTTPException HTTP_500_INTERNAL_SERVER_ERROR
             "An unexpected error occurred while retrieving user data" []).
Proof.
  apply (current_user_import_failure Sample.mac Sample.settings TypeError 60000000
           sample_token Sample.db).
  reflexivity.
Defined.

(** ** Issuing tokens *)



(** X18. A signed token whose payload has neither [exp] nor [nbf] is
    judged the same at every clock reading: if [verify_token] accepts it
    once it accepts it forever. *)
Theorem token_without_exp_never_expires
    (mac : string -> string -> Jose.signing_input -> string)
    (settings : Config.Settings) (now later : Z)
    (alg : string) (c : Jose.claims) (signature : string) :
  c !! "exp" = None -> c !! "nbf" = None ->
  verify_token mac settings later (Jose.Compact alg (Jose.Object c) signature)
  = verify_token mac settings now (Jose.Compact alg (Jose.Object c) signature).
Proof.
  intros Hexp Hnbf.
  assert (Jose.validate_claims later c = Jose.validate_claims now c) as Hval.
  { unfold Jose.validate_claims, Jose.validate_nbf, Jose.validate_exp, Jose.claim_int.
    now rewrite Hexp, Hnbf. }
  unfold verify_token, verify_token_try, Jose.decode. now rewrite Hval.
Qed.

Lemma token_without_exp_never_expires_witness :
  verify_token Sample.mac Sample.settings 4102444800000000 token_without_exp
  = verify_token Sample.mac Sample.settings 0 token_without_exp /\
  verify_token Sample.mac Sample.settings 0 token_without_exp = Ok (Some 1).
Proof.
  split; [| vm_compute; reflexivity].
  apply (token_without_exp_never_expires Sample.mac Sample.settings 0 4102444800000000);
    reflexivity.
Defined.

(** ** The task endpoints as a client reaches them *)

Definition GET_task
    (mac : string -> string -> Jose.signing_input -> string)
    (settings : Config.Settings) (now : Z) (authorization : option Jose.token)
    (path_user_id id : Z) (db : database) : result TaskRead.t :=
  user_id ← depends_validate_user_id_match mac settings now authorization path_user_id;
  get_task id user_id db.

Definition PUT_task
    (mac : string -> string -> Jose.signing_input -> string)
    (settings : Config.Settings) (now : Z) (authorization : option Jose.token)
    (path_user_id id : Z) (task_update : TaskUpdate.t) (db : database)
    : result TaskRead.t * database :=
  match depends_validate_user_id_match mac settings now authorization path_user_id with
  | Ok user_id => update_task id task_update user_id db
  | Raise e => (Raise e, db)
  end.

Definition DELETE_task
    (mac : string -> string -> Jose.signing_input -> string)
    (settings : Config.Settings) (now : Z) (authorization : option Jose.token)
    (path_user_id id : Z) (db : database) : result unit * database :=
  match depends_validate_user_id_match mac settings now authorization path_user_id with
  | Ok user_id => delete_task id user_id db
  | Raise e => (Raise e, db)
  end.

Lemma update_task_row_other_owner (db : database) (t t' : Task.t) (other : Z) :
  task_keys_unique db -> t ∈ tasks db ->
  Task.id t' = Task.id t -> Task.user_id t' = Task.user_id t ->
  other <> Task.user_id t ->
  select_tasks_by_user (update_task_row db t') other = select_tasks_by_user db other.
Proof.
  intros Hkeys Hin Hid Hu Hne.
  destruct (split_at_key (tasks db) t Hkeys Hin) as (l1 & l2 & Hsplit & H1 & H2).
  unfold select_tasks_by_user.
  rewrite (update_task_row_split db l1 l2 t t' Hsplit Hid H1 H2), Hsplit.
  rewrite !filter_app, !filter_cons_False by congruence. reflexivity.
Qed.

Lemma delete_task_row_other_owner (db : database) (t : Task.t) (other : Z) :
  task_keys_unique db -> t ∈ tasks db ->
  other <> Task.user_id t ->
  select_tasks_by_user (delete_task_row db t) other = select_tasks_by_user db other.
Proof.
  intros Hkeys Hin Hne.
  destruct (split_at_key (tasks db) t Hkeys Hin) as (l1 & l2 & Hsplit & H1 & H2).
  unfold select_tasks_by_user.
  rewrite (delete_task_row_split db l1 l2 t Hsplit H1 H2), Hsplit.
  rewrite !filter_app, filter_cons_False by congruence. reflexivity.
Qed.

Lemma finish_update_other_owner (detail : string) (id : Z) (task_update : TaskUpdate.t)
    (user_id other : Z) (db : database) :
  task_keys_unique db -> other <> user_id ->
  select_tasks_by_user
    (finish detail
       (task ← scalar_one_or_none (select_task db id user_id);
        match task with
        | None => Raise (HTTPException HTTP_404_NOT_FOUND "Task not found" [])
        | Some task =>
            task' ← apply_update task_update task;
            Ok (task_read task', update_task_row db task')
        end) db).2 other
  = select_tasks_by_user db other.
Proof.
  intros Hkeys Hne. unfold finish.
  destruct (scalar_one_or_none (select_task db id user_id)) as [[t |] | e] eqn:Hs; cbn;
    [| reflexivity | now destruct (isinstance_HTTPException e)].
  apply scalar_one_or_none_Some, select_task_elem in Hs as (Hin & Hid & Hu).
  destruct (apply_update task_update t) as [t' | e] eqn:Hup; cbn;
    [| now destruct (isinstance_HTTPException e)].
  apply apply_update_frame in Hup as (Hid' & Hu' & _).
  apply (update_task_row_other_owner db t t'); congruence.
Qed.

Lemma delete_task_other_owner (id user_id other : Z) (db : database) :
  task_keys_unique db -> other <> user_id ->
  select_tasks_by_user (delete_task id user_id db).2 other = select_tasks_by_user db other.
Proof.
  intros Hkeys Hne. unfold delete_task.
  destruct (scalar_one_or_none (select_task db id user_id)) as [[t |] | e] eqn:Hs; cbn;
    [| reflexivity | now destruct (isinstance_HTTPException e)].
  apply scalar_one_or_none_Some, select_task_elem in Hs as (Hin & Hid & Hu).
  apply (delete_task_row_other_owner db t); congruence.
Qed.

Lemma create_task_other_owner (now_created now_updated : Z) (task_create : TaskCreate.t)
    (user_id other : Z) (db : database) :
  other <> user_id ->
  select_tasks_by_user (create_task now_created now_updated task_create user_id db).2 other
  = select_tasks_by_user db other.
Proof.
  intros Hne. unfold create_task, insert_task, select_tasks_by_user. cbn.
  rewrite filter_app, filter_cons_False by (cbn; congruence).
  now rewrite app_nil_r.
Qed.

(** X20. Under the primary key of the task table, no request that carries
    a token of user [A] changes a task of anyone else: whatever path user
    id, task id and body the request names, after [POST], [PUT], [PATCH]
    or [DELETE] the tasks of every other user [B] are the ones that were
    stored before, and [GET] of a single task never returns a task that
    [A] does not own. *)
Theorem requests_cannot_touch_other_users
    (mac : string -> string -> Jose.signing_input -> string)
    (settings : Config.Settings) (now : Z) (token : Jose.token) (A B : Z)
    (path_user_id id : Z) (task_create : TaskCreate.t) (task_update : TaskUpdate.t)
    (now_created now_updated : Z) (db : database) :
  task_keys_unique db ->
  verify_token mac settings now token = Ok (Some A) ->
  B <> A ->
  select_tasks_by_user
    (POST_tasks mac settings now now_created now_updated (Some token) path_user_id
       task_create db).2 B = select_tasks_by_user db B /\
  select_tasks_by_user
    (PUT_task mac settings now (Some token) path_user_id id task_update db).2 B
  = select_tasks_by_user db B /\
  select_tasks_by_user
    (PATCH_task mac settings now (Some token) path_user_id id task_update db).2 B
  = select_tasks_by_user db B /\
  select_tasks_by_user
    (DELETE_task mac settings now (Some token) path_user_id id db).2 B
  = select_tasks_by_user db B /\
  (forall r,
     GET_task mac settings now (Some token) path_user_id id db = Ok r ->
     TaskRead.user_id r = A).
Proof.
  intros Hkeys Hv Hne.
  unfold POST_tasks, PUT_task, PATCH_task, DELETE_task, GET_task.
  destruct (depends_validate_user_id_match mac settings now (Some token) path_user_id)
    as [user_id | e] eqn:Hdep; cbn [snd mbind result_bind].
  - apply depends_validate_user_id_match_Ok in Hdep as (-> & token' & [= <-] & Hv').
    rewrite Hv in Hv'. injection Hv' as <-.
    split; [now apply create_task_other_owner |].
    split; [exact (finish_update_other_owner _ id task_update A B db Hkeys Hne) |].
    split; [exact (finish_update_other_owner _ id task_update A B db Hkeys Hne) |].
    split; [now apply delete_task_other_owner |].
    intros r. unfold get_task.
    destruct (scalar_one_or_none (select_task db id A)) as [[t |] | e] eqn:Hs; cbn;
      [| discriminate | destruct (isinstance_HTTPException e); discriminate].
    intros [= <-].
    now apply scalar_one_or_none_Some, select_task_elem in Hs as (_ & _ & Hu).
  - repeat (split; [reflexivity |]). discriminate.
Qed.

Lemma requests_cannot_touch_other_users_witness :
  select_tasks_by_user
    (PATCH_task Sample.mac Sample.settings 1000000 (Some sample_token) 1 2
       patch_completed Sample.db).2 2 = select_tasks_by_user Sample.db 2 /\
  select_tasks_by_user
    (DELETE_task Sample.mac Sample.settings 1000000 (Some sample_token) 2 2 Sample.db).2 2
  = select_tasks_by_user Sample.db 2.
Proof.
  split.
  - apply (requests_cannot_touch_other_users Sample.mac Sample.settings 1000000
             sample_token 1 2 1 2
             {| TaskCreate.title := "x"; TaskCreate.description := None;
                TaskCreate.completed := false |} patch_completed 0 0 Sample.db).
    + apply sample_task_keys_unique.
    + vm_compute. reflexivity.
    + discriminate.
  - apply (requests_cannot_touch_other_users Sample.mac Sample.settings 1000000
             sample_token 1 2 2 2
             {| TaskCreate.title := "x"; TaskCreate.description := None;
                TaskCreate.completed := false |} patch_completed 0 0 Sample.db).
    + apply sample_task_keys_unique.
    + vm_compute. reflexivity.
    + discriminate.
Defined.

(** ** The error answers of the authentication routes *)

Lemma create_access_token_not_http
    (mac : string -> string -> Jose.signing_input -> string)
    (settings : Config.Settings) (now : Z) (data : gmap string pyval)
    (expires_delta : option Z) (e : exn) :
  create_access_token mac settings now data expires_delta = Raise e ->
  isinstance_HTTPException e = false.
Proof.
  unfold create_access_token.
  destruct (expiry_of settings now expires_delta) as [expire | e'] eqn:Hexp;
    cbn [mbind result_bind]; intros H.
  - apply encode_raises in H as [-> | ->]; reflexivity.
  - injection H as <-. now apply expiry_of_raises in Hexp as ->.
Qed.

(** X21. The authentication routes raise nothing but their own answers.
    [login_user] fails only with 401 "Incorrect email or password", 401
    "Authentication error", 401 "Inactive user" or its 500;
    [register_user] fails only with 409, 400 "Invalid password format" or
    its 500, and a failed registration leaves the database as it was. *)
Theorem auth_routes_error_answers
    (mac : string -> string -> Jose.signing_input -> string)
    (handler : Passlib.handler) (settings : Config.Settings)
    (salt : string) (now : Z) (form : OAuth2PasswordRequestForm.t)
    (user_create : UserCreate.t) (db : database) (e : exn) :
  (login_user mac handler settings now form db = Raise e ->
   e = incorrect_credentials \/ e = authentication_error \/ e = inactive_user \/
   e = HTTPException HTTP_500_INTERNAL_SERVER_ERROR
         "An unexpected error occurred during login" []) /\
  ((register_user handler salt now user_create db).1 = Raise e ->
   (e = conflict \/ e = invalid_password \/
    e = HTTPException HTTP_500_INTERNAL_SERVER_ERROR
          "An unexpected error occurred during registration" []) /\
   (register_user handler salt now user_create db).2 = db).
Proof.
  split.
  - unfold login_user.
    destruct (select_user_by_email db (OAuth2PasswordRequestForm.username form))
      as [| user [| user' rest]]; cbn -[create_access_token verify_password].
    + intros [= <-]. now left.
    + destruct (verify_password handler (OAuth2PasswordRequestForm.password form)
                  (User.hashed_password user)) as [[|] | e'];
        cbn -[create_access_token].
      * destruct (User.is_active user); cbn -[create_access_token].
        -- destruct (create_access_token mac settings now _ None) as [tok | e'] eqn:Htok;
             cbn; [discriminate |].
           rewrite (create_access_token_not_http _ _ _ _ _ _ Htok).
           intros [= <-]. now right; right; right.
        -- intros [= <-]. now right; right; left.
      * intros [= <-]. now left.
      * intros [= <-]. now right; left.
    + intros [= <-]. now right; right; right.
  - unfold register_user.
    destruct (select_user_by_email db (UserCreate.email user_create))
      as [| user [| user' rest]]; cbn.
    + destruct (get_password_hash handler salt (UserCreate.password user_create))
        as [hashed | e']; cbn.
      * unfold insert_user. case_bool_decide; cbn; [| discriminate].
        intros [= <-]. split; [now right; right | reflexivity].
      * intros [= <-]. split; [now right; left | reflexivity].
    + intros [= <-]. split; [now left | reflexivity].
    + intros [= <-]. split; [now right; right | reflexivity].
Qed.
